(** * user-service: the etcd-backed distributed lock of [service/lock.go]

    A shallow embedding of [EtcdDistLock] (constructor, [Lock], [Unlock],
    [Close]).  The etcd client library ([clientv3], [concurrency]) is
    outside the repository; it is taken as an interface, [EtcdAPI], whose
    operations transform an abstract store and may fail.  Every call the
    lock makes into that library, and every [log.Println], is recorded in
    the list of events an action returns, so that statements such as
    "no round-trip was made" or "the session was closed before returning"
    can be read off the result. *)

From Stdlib Require Import String List ZArith Lia.
From Stdlib Require Import Ascii DecimalString FMapAVL FMapFacts OrderedTypeEx Bool.
From Stdlib Require DecimalFacts DecimalPos DecimalN DecimalZ.
Import ListNotations.
Open Scope string_scope.

(** ** The consumed etcd interface *)

(** [clientv3.Config] as filled in by [NewEtcdDistLock]. *)
Record Config := mkConfig {
  Endpoints : list string;
  DialTimeout : Z;            (* a time.Duration, in nanoseconds *)
  Username : string;
  Password : string
}.

Definition time_Second : Z := 1000000000.

(** The library calls of [lock.go].  A Go result [(v, err)] is a sum, a
    bare [error] result is an [option] ([None] is [nil]). *)
Class EtcdAPI := {
  Client : Type;               (* a non-nil *clientv3.Client *)
  Session : Type;              (* a non-nil *concurrency.Session *)
  Mutex : Type;                (* a non-nil *concurrency.Mutex *)
  context_Context : Type;
  StoreErr : Type;             (* the errors the library reports *)
  Store : Type;                (* everything outside the process *)
  clientv3_New : Config -> Store -> Store * (Client + StoreErr);
  concurrency_NewSession : Client -> Z -> Store -> Store * (Session + StoreErr);
  concurrency_NewMutex : Session -> string -> Mutex;
  Mutex_Lock : Mutex -> context_Context -> Store -> Store * option StoreErr;
  Mutex_Unlock : Mutex -> context_Context -> Store -> Store * option StoreErr;
  Session_Close : Session -> Store -> Store * option StoreErr;
  Client_Close : Client -> Store -> Store * option StoreErr
}.

Section Model.
Context `{api : EtcdAPI}.

(** Go [error] values built in [lock.go]: [errors.New msg],
    [fmt.Errorf (msg ++ "%w") err], or an error handed over by etcd. *)
Inductive error :=
| errors_New (msg : string)
| fmt_Errorf (msg : string) (wrapped : error)
| etcd_error (e : StoreErr).

(** One entry per call into the library, with what the call returned. *)
Inductive Event :=
| EvNew (cfg : Config) (r : Client + StoreErr)
| EvNewSession (cli : Client) (ttl : Z) (r : Session + StoreErr)
| EvNewMutex (s : Session) (pfx : string)
| EvMutexLock (m : Mutex) (ctx : context_Context) (r : option StoreErr)
| EvMutexUnlock (m : Mutex) (ctx : context_Context) (r : option StoreErr)
| EvSessionClose (s : Session) (r : option StoreErr)
| EvClientClose (cli : Client) (r : option StoreErr)
| EvLog (msg : string).

(** ** Actions: store passing with an event log *)

Definition Act (A : Type) : Type := Store -> A * Store * list Event.

Definition ret {A} (a : A) : Act A := fun st => (a, st, []).

Definition bind {A B} (m : Act A) (k : A -> Act B) : Act B :=
  fun st =>
    let '(a, st1, t1) := m st in
    let '(b, st2, t2) := k a st1 in
    (b, st2, (t1 ++ t2)%list).

Definition value {A} (r : A * Store * list Event) : A := fst (fst r).
Definition store_of {A} (r : A * Store * list Event) : Store := snd (fst r).
Definition events {A} (r : A * Store * list Event) : list Event := snd r.

Definition do_New (cfg : Config) : Act (Client + StoreErr) :=
  fun st => let (st', r) := clientv3_New cfg st in (r, st', [EvNew cfg r]).

Definition do_NewSession (cli : Client) (ttl : Z) : Act (Session + StoreErr) :=
  fun st =>
    let (st', r) := concurrency_NewSession cli ttl st in
    (r, st', [EvNewSession cli ttl r]).

Definition do_NewMutex (s : Session) (pfx : string) : Act Mutex :=
  fun st => (concurrency_NewMutex s pfx, st, [EvNewMutex s pfx]).

Definition do_MutexLock (m : Mutex) (ctx : context_Context) : Act (option StoreErr) :=
  fun st => let (st', r) := Mutex_Lock m ctx st in (r, st', [EvMutexLock m ctx r]).

Definition do_MutexUnlock (m : Mutex) (ctx : context_Context) : Act (option StoreErr) :=
  fun st => let (st', r) := Mutex_Unlock m ctx st in (r, st', [EvMutexUnlock m ctx r]).

Definition do_SessionClose (s : Session) : Act (option StoreErr) :=
  fun st => let (st', r) := Session_Close s st in (r, st', [EvSessionClose s r]).

Definition do_ClientClose (cli : Client) : Act (option StoreErr) :=
  fun st => let (st', r) := Client_Close cli st in (r, st', [EvClientClose cli r]).

Definition log_Println (msg : string) : Act unit :=
  fun st => (tt, st, [EvLog msg]).

End Model.

Declare Scope act_scope.
Delimit Scope act_scope with act.
Notation "x <- m ;; k" := (bind m (fun x => k))
  (at level 100, m at next level, right associativity) : act_scope.
Notation "m ;;; k" := (bind m (fun _ => k))
  (at level 100, right associativity) : act_scope.
Open Scope act_scope.

Section Lock.
Context `{api : EtcdAPI}.

(** ** [EtcdDistLock] *)

(** The struct of lock.go; a nil pointer field is [None]. *)
Record EtcdDistLock := mkLock {
  etcdClient : option Client;
  session : option Session;
  mutex : option Mutex;
  lockPrefix : string
}.

Definition ErrClientNil : error := errors_New "ETCD客户端未初始化".
Definition ErrNotHeld : error := errors_New "未获取到分布式锁，无需释放".

(** [NewEtcdDistLock]: [(nil, err)] is [inr err]. *)
Definition NewEtcdDistLock (endpoints : list string) (pfx : string)
  : Act (EtcdDistLock + error) :=
  let config := {| Endpoints := endpoints;
                   DialTimeout := 5 * time_Second;
                   Username := "";
                   Password := "" |} in
  r <- do_New config ;;
  match r with
  | inr err => ret (inr (fmt_Errorf "创建ETCD客户端失败：" (etcd_error err)))
  | inl cli =>
      ret (inl {| etcdClient := Some cli;
                  session := None;
                  mutex := None;
                  lockPrefix := pfx |})
  end.

(** [Lock]: the receiver is updated in place, so the action returns the
    receiver after the call next to the [error] result. *)
Definition Lock (l : EtcdDistLock) (ctx : context_Context) (ttl : Z)
  : Act (EtcdDistLock * option error) :=
  match etcdClient l with
  | None => ret (l, Some ErrClientNil)
  | Some cli =>
      r <- do_NewSession cli ttl ;;
      match r with
      | inr err =>
          ret (l, Some (fmt_Errorf "创建ETCD会话失败：" (etcd_error err)))
      | inl sess =>
          mu <- do_NewMutex sess (lockPrefix l) ;;
          log_Println "尝试获取分布式锁..." ;;;
          e <- do_MutexLock mu ctx ;;
          match e with
          | Some err =>
              do_SessionClose sess ;;;
              ret (l, Some (fmt_Errorf "获取分布式锁失败：" (etcd_error err)))
          | None =>
              let l1 := {| etcdClient := etcdClient l;
                           session := Some sess;
                           mutex := Some mu;
                           lockPrefix := lockPrefix l |} in
              log_Println "成功获取分布式锁" ;;;
              ret (l1, None)
          end
      end
  end.

(** [Unlock]. *)
Definition Unlock (l : EtcdDistLock) (ctx : context_Context)
  : Act (EtcdDistLock * option error) :=
  match mutex l, session l with
  | Some mu, Some sess =>
      log_Println "尝试释放分布式锁..." ;;;
      e <- do_MutexUnlock mu ctx ;;
      match e with
      | Some err =>
          ret (l, Some (fmt_Errorf "释放分布式锁失败：" (etcd_error err)))
      | None =>
          do_SessionClose sess ;;;
          let l1 := {| etcdClient := etcdClient l;
                       session := None;
                       mutex := None;
                       lockPrefix := lockPrefix l |} in
          log_Println "成功释放分布式锁" ;;;
          ret (l1, None)
      end
  | _, _ => ret (l, Some ErrNotHeld)
  end.

(** [Close]: the result of [etcdClient.Close] is the result. *)
Definition Close (l : EtcdDistLock) : Act (EtcdDistLock * option error) :=
  match etcdClient l with
  | Some cli =>
      e <- do_ClientClose cli ;;
      ret (l, option_map etcd_error e)
  | None => ret (l, None)
  end.

End Lock.

Section Observations.
Context `{api : EtcdAPI}.

(** ** What is read off a result *)

Definition is_NewSession (e : Event) : bool :=
  match e with EvNewSession _ _ _ => true | _ => false end.

Definition is_SessionClose (e : Event) : bool :=
  match e with EvSessionClose _ _ => true | _ => false end.

Definition count (p : Event -> bool) (evs : list Event) : nat :=
  length (filter p evs).

Definition is_err {A} (r : option A) : bool :=
  match r with Some _ => true | None => false end.

Definition is_inr {A B} (r : A + B) : bool :=
  match r with inr _ => true | inl _ => false end.

(** A library call that reported an error. *)
Definition call_failed (e : Event) : bool :=
  match e with
  | EvNew _ r => is_inr r
  | EvNewSession _ _ r => is_inr r
  | EvMutexLock _ _ r => is_err r
  | EvMutexUnlock _ _ r => is_err r
  | EvSessionClose _ r => is_err r
  | EvClientClose _ r => is_err r
  | EvNewMutex _ _ => false
  | EvLog _ => false
  end.

(** The same, leaving out the two [Close] calls. *)
Definition step_failed (e : Event) : bool :=
  match e with
  | EvSessionClose _ _ => false
  | EvClientClose _ _ => false
  | _ => call_failed e
  end.

(** The guard of [Unlock] lets the call through. *)
Definition held (l : EtcdDistLock) : bool :=
  match mutex l, session l with
  | Some _, Some _ => true
  | _, _ => false
  end.

(** [session] is nil exactly when [mutex] is. *)
Definition paired (l : EtcdDistLock) : Prop :=
  session l = None <-> mutex l = None.

(** ** Sequences of calls on one instance *)

(** One acquire/release cycle, as in the body of a client of [main]:
    [Lock], then (the protected work, then) [Unlock]; the first error ends
    it. *)
Definition cycle (ctx : context_Context) (ttl : Z) (l : EtcdDistLock)
  : Act (EtcdDistLock * option error) :=
  r <- Lock l ctx ttl ;;
  match snd r with
  | Some _ => ret r
  | None => Unlock (fst r) ctx
  end.

Fixpoint cycles (n : nat) (ctx : context_Context) (ttl : Z) (l : EtcdDistLock)
  : Act (EtcdDistLock * option error) :=
  match n with
  | O => ret (l, None)
  | S n' =>
      r <- cycle ctx ttl l ;;
      match snd r with
      | Some _ => ret r
      | None => cycles n' ctx ttl (fst r)
      end
  end.

(** Any call on an instance, and any sequence of them. *)
Inductive Op :=
| OpLock (ctx : context_Context) (ttl : Z)
| OpUnlock (ctx : context_Context)
| OpClose.

Definition run_op (o : Op) (l : EtcdDistLock) : Act (EtcdDistLock * option error) :=
  match o with
  | OpLock ctx ttl => Lock l ctx ttl
  | OpUnlock ctx => Unlock l ctx
  | OpClose => Close l
  end.

Fixpoint run_ops (os : list Op) (l : EtcdDistLock) : Act EtcdDistLock :=
  match os with
  | [] => ret l
  | o :: os' => r <- run_op o l ;; run_ops os' (fst r)
  end.

(** ** The paths through [Lock] and [Unlock]

    One constructor per [return] statement of the Go function, with the
    library answers that lead to it. *)

Inductive LockPath (l : EtcdDistLock) (ctx : context_Context) (ttl : Z) (st : Store)
  : (EtcdDistLock * option error) * Store * list Event -> Prop :=
| LockNoClient :
    etcdClient l = None ->
    LockPath l ctx ttl st ((l, Some ErrClientNil), st, [])
| LockNoSession cli st1 err :
    etcdClient l = Some cli ->
    concurrency_NewSession cli ttl st = (st1, inr err) ->
    LockPath l ctx ttl st
      ((l, Some (fmt_Errorf "创建ETCD会话失败：" (etcd_error err))), st1,
       [EvNewSession cli ttl (inr err)])
| LockRefused cli st1 sess st2 err st3 r :
    etcdClient l = Some cli ->
    concurrency_NewSession cli ttl st = (st1, inl sess) ->
    Mutex_Lock (concurrency_NewMutex sess (lockPrefix l)) ctx st1 = (st2, Some err) ->
    Session_Close sess st2 = (st3, r) ->
    LockPath l ctx ttl st
      ((l, Some (fmt_Errorf "获取分布式锁失败：" (etcd_error err))), st3,
       [EvNewSession cli ttl (inl sess);
        EvNewMutex sess (lockPrefix l);
        EvLog "尝试获取分布式锁...";
        EvMutexLock (concurrency_NewMutex sess (lockPrefix l)) ctx (Some err);
        EvSessionClose sess r])
| LockGranted cli st1 sess st2 :
    etcdClient l = Some cli ->
    concurrency_NewSession cli ttl st = (st1, inl sess) ->
    Mutex_Lock (concurrency_NewMutex sess (lockPrefix l)) ctx st1 = (st2, None) ->
    LockPath l ctx ttl st
      (({| etcdClient := etcdClient l;
           session := Some sess;
           mutex := Some (concurrency_NewMutex sess (lockPrefix l));
           lockPrefix := lockPrefix l |}, None), st2,
       [EvNewSession cli ttl (inl sess);
        EvNewMutex sess (lockPrefix l);
        EvLog "尝试获取分布式锁...";
        EvMutexLock (concurrency_NewMutex sess (lockPrefix l)) ctx None;
        EvLog "成功获取分布式锁"]).

Inductive UnlockPath (l : EtcdDistLock) (ctx : context_Context) (st : Store)
  : (EtcdDistLock * option error) * Store * list Event -> Prop :=
| UnlockNotHeld :
    held l = false ->
    UnlockPath l ctx st ((l, Some ErrNotHeld), st, [])
| UnlockRefused mu sess st1 err :
    mutex l = Some mu ->
    session l = Some sess ->
    Mutex_Unlock mu ctx st = (st1, Some err) ->
    UnlockPath l ctx st
      ((l, Some (fmt_Errorf "释放分布式锁失败：" (etcd_error err))), st1,
       [EvLog "尝试释放分布式锁..."; EvMutexUnlock mu ctx (Some err)])
| UnlockDone mu sess st1 st2 r :
    mutex l = Some mu ->
    session l = Some sess ->
    Mutex_Unlock mu ctx st = (st1, None) ->
    Session_Close sess st1 = (st2, r) ->
    UnlockPath l ctx st
      (({| etcdClient := etcdClient l;
           session := None;
           mutex := None;
           lockPrefix := lockPrefix l |}, None), st2,
       [EvLog "尝试释放分布式锁...";
        EvMutexUnlock mu ctx None;
        EvSessionClose sess r;
        EvLog "成功释放分布式锁"]).

(** ** Readings of the specification that the code is compared with *)

(** One session serves all cycles: at most one is created, none closed. *)
Definition single_session (evs : list Event) : Prop :=
  (count is_NewSession evs <= 1)%nat /\ count is_SessionClose evs = 0%nat.

(** The session [s] is closed among [evs]. *)
Definition tears_down (s : Session) (evs : list Event) : Prop :=
  exists r, In (EvSessionClose s r) evs.

(** A mutex for the resource name [name] is created among [evs]. *)
Definition acquires (name : string) (evs : list Event) : Prop :=
  exists s, In (EvNewMutex s name) evs.

(** Every failed library call surfaces in the returned error. *)
Definition no_swallowed_error (r : (EtcdDistLock * option error) * Store * list Event)
  : Prop :=
  existsb call_failed (events r) = true -> snd (value r) <> None.

End Observations.

(** ** A scripted store

    A stand-in for etcd in which the outcome of each round-trip is read
    from a list ([true]: it succeeds; an exhausted list: it succeeds) and
    sessions are numbered in order of creation.  It is used to run the
    definitions above on concrete inputs. *)

Record Script := mkScript {
  outcomes : list bool;
  fresh : nat
}.

Definition pop (st : Script) : bool * Script :=
  match outcomes st with
  | [] => (true, st)
  | b :: bs => (b, {| outcomes := bs; fresh := fresh st |})
  end.

Definition scripted_error (st : Script) : Script * option string :=
  let (ok, st') := pop st in
  (st', if ok then None else Some "unavailable").

Definition scripted_NewSession (st : Script) : Script * (nat + string) :=
  let (ok, st') := pop st in
  if ok
  then ({| outcomes := outcomes st'; fresh := S (fresh st') |}, inl (fresh st'))
  else (st', inr "unavailable").

#[export] Instance ScriptedEtcd : EtcdAPI := {|
  Client := nat;
  Session := nat;
  Mutex := nat * string;
  context_Context := unit;
  StoreErr := string;
  Store := Script;
  clientv3_New := fun _ st => scripted_NewSession st;
  concurrency_NewSession := fun _ _ st => scripted_NewSession st;
  concurrency_NewMutex := fun s pfx => (s, pfx);
  Mutex_Lock := fun _ _ st => scripted_error st;
  Mutex_Unlock := fun _ _ st => scripted_error st;
  Session_Close := fun _ st => scripted_error st;
  Client_Close := fun _ st => scripted_error st
|}.

(** The store before anything was created, with the outcomes of the
    round-trips to come. *)
Definition script (bs : list bool) : Script := {| outcomes := bs; fresh := 0 |}.

(** The store once [NewEtcdDistLock] has taken client 0 from it, with the
    outcomes of the round-trips still to come. *)
Definition started (bs : list bool) : Script := {| outcomes := bs; fresh := 1 |}.

Definition test_resource : string := "/dist/lock/test_resource/".

(** The instance [main] builds. *)
Definition demo_lock : EtcdDistLock :=
  {| etcdClient := Some 0%nat;
     session := None;
     mutex := None;
     lockPrefix := test_resource |}.

(** [demo_lock] once [Lock] has succeeded, through session 1. *)
Definition demo_held : EtcdDistLock :=
  {| etcdClient := Some 0%nat;
     session := Some 1%nat;
     mutex := Some (1%nat, test_resource);
     lockPrefix := test_resource |}.

(** A zero-value instance: no client. *)
Definition zero_lock : EtcdDistLock :=
  {| etcdClient := None; session := None; mutex := None; lockPrefix := "" |}.

(** * The rest of [lock.go]: the client goroutine of [main] *)

(** The configuration [NewEtcdDistLock] passes to [clientv3.New]. *)
Definition main_config (endpoints : list string) : Config :=
  {| Endpoints := endpoints; DialTimeout := 5 * time_Second;
     Username := ""; Password := "" |}.

(** [fmt]'s [%d] for an integer. *)
Definition fmt_d (z : Z) : string := NilZero.string_of_int (Z.to_int z).

Section ClientOfMain.
Context `{api : EtcdAPI}.

(** The [Error()] method of the errors the etcd library reports. *)
Variable StoreErr_Error : StoreErr -> string.

(** [err.Error()], which is what [%v] prints: [fmt.Errorf] with [%w]
    puts the text of the wrapped error after its own. *)
Fixpoint error_Error (e : error) : string :=
  match e with
  | errors_New msg => msg
  | fmt_Errorf msg wrapped => msg ++ error_Error wrapped
  | etcd_error s => StoreErr_Error s
  end.

(** [log.Printf], with the formatted line. *)
Definition log_Printf (line : string) : Act unit :=
  fun st => (tt, st, [EvLog line]).

(** The body of one client goroutine of [main].  [ctx] is the context
    made by [context.WithTimeout(context.Background(), 30*time.Second)].
    The deferred [lock.Close()] is written out before each [return] that
    follows the [defer] statement.  [time.Sleep], [cancel()] and the
    [WaitGroup] calls make no call into the etcd library and write no log
    line; they leave no event. *)
Definition client (endpoints : list string) (pfx : string) (leaseTTL : Z)
  (ctx : context_Context) (cid : Z) : Act unit :=
  r <- NewEtcdDistLock endpoints pfx ;;
  match r with
  | inr err =>
      log_Printf ("客户端" ++ fmt_d cid ++ "：初始化锁失败 - " ++ error_Error err)
  | inl lock =>
      r1 <- Lock lock ctx leaseTTL ;;
      match snd r1 with
      | Some err =>
          log_Printf ("客户端" ++ fmt_d cid ++ "：获取锁失败 - " ++ error_Error err) ;;;
          Close (fst r1) ;;;
          ret tt
      | None =>
          log_Printf ("客户端" ++ fmt_d cid ++ "：开始执行业务逻辑（耗时2秒）") ;;;
          log_Printf ("客户端" ++ fmt_d cid ++ "：业务逻辑执行完成") ;;;
          r2 <- Unlock (fst r1) ctx ;;
          match snd r2 with
          | Some err =>
              log_Printf ("客户端" ++ fmt_d cid ++ "：释放锁失败 - " ++ error_Error err) ;;;
              Close (fst r2) ;;;
              ret tt
          | None =>
              Close (fst r2) ;;;
              ret tt
          end
      end
  end.

End ClientOfMain.

Section TraceObservations.
Context `{api : EtcdAPI}.

(** A [NewSession] call that returned a session. *)
Definition is_opened (e : Event) : bool :=
  match e with EvNewSession _ _ (inl _) => true | _ => false end.

Definition is_ClientClose (e : Event) : bool :=
  match e with EvClientClose _ _ => true | _ => false end.

Definition is_MutexUnlock (e : Event) : bool :=
  match e with EvMutexUnlock _ _ _ => true | _ => false end.

(** A [mutex.Unlock] call that reported an error. *)
Definition unlock_failed (e : Event) : bool :=
  match e with EvMutexUnlock _ _ (Some _) => true | _ => false end.

(** A call into the etcd library, as opposed to a log line. *)
Definition is_call (e : Event) : bool :=
  match e with EvLog _ => false | _ => true end.

(** 1 when the instance records a session, 0 otherwise. *)
Definition sessions_recorded (l : EtcdDistLock) : nat :=
  match session l with Some _ => 1 | None => 0 end.

(** Every [mutex.Unlock] in the trace is on a mutex that an earlier
    [mutex.Lock] in the trace obtained. *)
Definition unlocks_follow_locks (evs : list Event) : Prop :=
  forall a m ctx r b,
    evs = (a ++ EvMutexUnlock m ctx r :: b)%list ->
    exists ctx', In (EvMutexLock m ctx' None) a.

(** What the instance holds was locked in the trace [evs]. *)
Definition holds_locked (evs : list Event) (l : EtcdDistLock) : Prop :=
  forall m s,
    mutex l = Some m -> session l = Some s ->
    exists ctx', In (EvMutexLock m ctx' None) evs.

End TraceObservations.

(** * [service/handler/user_handler.go]: the registration handler *)

(** The messages of [user-service/proto/user], which is not among the
    sources; the fields are the ones the handlers read and write. *)
Module user.

Record RegisterRequest := mkRegisterRequest {
  Username : string;
  Password : string;
  Email : string
}.

Record RegisterResponse := mkRegisterResponse {
  Code : Z;
  Message : string;
  UserId : string
}.

End user.

(** [map[string]bool], the type of the package variable [userDB]. *)
Module StrMap := FMapAVL.Make String_as_OT.
Module StrMapFacts := FMapFacts.Facts StrMap.

Definition UserDB : Type := StrMap.t bool.

(** [make(map[string]bool)], the initial value of [userDB]. *)
Definition userDB_init : UserDB := StrMap.empty bool.

(** [n] characters [0]. *)
Fixpoint zeros (n : nat) : string :=
  match n with
  | O => ""
  | S n' => String "0" (zeros n')
  end.

(** [fmt]'s [%06d]: the sign, then zeros up to a width of six, then the
    digits. *)
Definition fmt_06d (z : Z) : string :=
  let sign := if (z <? 0)%Z then "-" else "" in
  let digits := fmt_d (Z.abs z) in
  sign ++ zeros (6 - String.length sign - String.length digits) ++ digits.

(** The decimal digits [%d] prints for a number, without its sign. *)
Definition digits_of (z : Z) : Decimal.uint :=
  match Z.to_int z with Decimal.Pos d => d | Decimal.Neg d => d end.

(** [fmt.Sprintf("USER_%d%06d", unix, rnd)]. *)
Definition user_id (unix rnd : Z) : string :=
  "USER_" ++ fmt_d unix ++ fmt_06d rnd.

(** What a call of [Register] leaves behind: the value of [userDB], the
    response (the caller's [rsp], updated in place), the lines given to
    [logger.Infof], and the returned [error] ([None] is [nil]; the handler
    builds no error, so its text is all that is kept). *)
Record Registered := mkRegistered {
  reg_db : UserDB;
  reg_rsp : user.RegisterResponse;
  reg_log : list string;
  reg_err : option string
}.

(** [UserServiceImpl.Register].  [unix] is what [time.Now().Unix()]
    returns and [rnd] what [rand.Intn(999999)] returns after the
    generator was re-seeded from the clock; both are read on the last path
    only. *)
Definition Register (req : user.RegisterRequest) (rsp : user.RegisterResponse)
  (unix rnd : Z) (userDB : UserDB) : Registered :=
  if (user.Username req =? "") || (user.Password req =? "") then
    {| reg_db := userDB;
       reg_rsp := {| user.Code := 1;
                     user.Message := "用户名和密码不能为空";
                     user.UserId := user.UserId rsp |};
       reg_log := [];
       reg_err := None |}
  else
    let line1 := "用户注册请求：用户名=" ++ user.Username req
                 ++ "，密码=" ++ user.Password req
                 ++ "，邮箱=" ++ user.Email req in
    if StrMap.mem (user.Username req) userDB then
      {| reg_db := userDB;
         reg_rsp := {| user.Code := 1;
                       user.Message := "用户名已存在，请更换用户名";
                       user.UserId := user.UserId rsp |};
         reg_log := [line1];
         reg_err := None |}
    else
      let userId := user_id unix rnd in
      {| reg_db := StrMap.add (user.Username req) true userDB;
         reg_rsp := {| user.Code := 0;
                       user.Message := "注册成功";
                       user.UserId := userId |};
         reg_log := [line1;
                     "用户注册成功：用户名=" ++ user.Username req
                     ++ "，用户ID=" ++ userId];
         reg_err := None |}.

(** One incoming call: the request, the response object handed to the
    handler, and what the clock and the generator answer during it. *)
Record Call := mkCall {
  call_req : user.RegisterRequest;
  call_rsp : user.RegisterResponse;
  call_unix : Z;
  call_rnd : Z
}.

(** A response object as allocated for a call: a zero value. *)
Definition zero_response : user.RegisterResponse :=
  {| user.Code := 0; user.Message := ""; user.UserId := "" |}.

(** The handler serving calls one after the other on the shared
    [userDB]; each call is paired with its response. *)
Fixpoint serve (calls : list Call) (userDB : UserDB)
  : list (user.RegisterRequest * user.RegisterResponse) * UserDB :=
  match calls with
  | [] => ([], userDB)
  | c :: calls' =>
      let r := Register (call_req c) (call_rsp c) (call_unix c) (call_rnd c) userDB in
      let (rest, db') := serve calls' (reg_db r) in
      ((call_req c, reg_rsp r) :: rest, db')
  end.

(** The user names that were registered: those answered with code 0. *)
Definition registered_names
  (answers : list (user.RegisterRequest * user.RegisterResponse)) : list string :=
  map (fun a => user.Username (fst a))
      (filter (fun a => (user.Code (snd a) =? 0)%Z) answers).

(** * [pkg/common]: the uniform HTTP replies *)

Module common.

(** [ApiResponse]; [Data] is an [interface{}], nil being [None]. *)
Record ApiResponse {D : Type} := mkApiResponse {
  Code : Z;
  Message : string;
  Data : option D
}.

(** What [c.JSON(status, body)] writes. *)
Record Reply {D : Type} := mkReply {
  status : Z;
  body : @ApiResponse D
}.

Definition StatusOK : Z := 200.
Definition StatusInternalServerError : Z := 500.

(** [Success]. *)
Definition Success {D : Type} (data : option D) (message : string) : @Reply D :=
  let message := if message =? "" then "操作成功" else message in
  {| status := StatusOK;
     body := {| Code := 0; Message := message; Data := data |} |}.

(** [Fail]. *)
Definition Fail {D : Type} (code : Z) (message : string) : @Reply D :=
  let code := if (code =? 0)%Z then 1%Z else code in
  let message := if message =? "" then "操作失败" else message in
  {| status := StatusOK;
     body := {| Code := code; Message := message; Data := None |} |}.

(** [Error]. *)
Definition Error {D : Type} (message : string) : @Reply D :=
  let message := if message =? "" then "系统内部错误" else message in
  {| status := StatusInternalServerError;
     body := {| Code := 500; Message := message; Data := None |} |}.

(** [GenerateUserId]; [unix] and [rnd] are what [time.Now().Unix()] and
    [rand.Intn(999999)] return. *)
Definition GenerateUserId (unix rnd : Z) : string :=
  "USER_" ++ fmt_d unix ++ fmt_06d rnd.

End common.

(** * The Redis rate limiter ([RateLimit], package [middleware]) *)

(** A signed 64-bit integer kept as a [Z]: the result of an operation is
    brought back into range. *)
Definition wrap64 (z : Z) : Z := ((z + 2 ^ 63) mod 2 ^ 64 - 2 ^ 63)%Z.

Definition int64_sub (a b : Z) : Z := wrap64 (a - b).
Definition int64_mul (a b : Z) : Z := wrap64 (a * b).

(** [a / b] for a non-zero [b]: the quotient is truncated toward zero. *)
Definition int64_quot (a b : Z) : Z := wrap64 (Z.quot a b).

(** The commands of [*redis.Client] the limiter uses.  A command answers
    with a value and an [error], as its Go accessor returns them. *)
Class RedisAPI := {
  Redis : Type;
  RedisErr : Type;
  redis_SetNX : string -> Z -> Z -> Redis -> Redis * (bool * option RedisErr);
  redis_Get_Int64 : string -> Redis -> Redis * (Z * option RedisErr);
  redis_IncrBy : string -> Z -> Redis -> Redis * (Z * option RedisErr);
  redis_Set : string -> Z -> Z -> Redis -> Redis * (string * option RedisErr);
  redis_Decr : string -> Redis -> Redis * (Z * option RedisErr)
}.

Section RateLimiter.
Context `{redis : RedisAPI}.

(** One entry per command sent, with its answer. *)
Inductive RedisCmd :=
| CmdSetNX (key : string) (v : Z) (ttl : Z) (r : bool * option RedisErr)
| CmdGet (key : string) (r : Z * option RedisErr)
| CmdIncrBy (key : string) (n : Z) (r : Z * option RedisErr)
| CmdSet (key : string) (v : Z) (ttl : Z) (r : string * option RedisErr)
| CmdDecr (key : string) (r : Z * option RedisErr).

(** How the handler ends: [c.Next()] was called, a reply was written and
    the chain aborted, or the handler panicked. *)
Inductive Served {D : Type} :=
| Passed
| Aborted (reply : @common.Reply D)
| Panicked.

Definition RAct (A : Type) : Type := Redis -> A * Redis * list RedisCmd.

Definition rret {A} (a : A) : RAct A := fun rs => (a, rs, []).

Definition rbind {A B} (m : RAct A) (k : A -> RAct B) : RAct B :=
  fun rs =>
    let '(a, rs1, t1) := m rs in
    let '(b, rs2, t2) := k a rs1 in
    (b, rs2, (t1 ++ t2)%list).

Definition do_SetNX (key : string) (v ttl : Z) : RAct (bool * option RedisErr) :=
  fun rs => let (rs', r) := redis_SetNX key v ttl rs in (r, rs', [CmdSetNX key v ttl r]).

Definition do_Get (key : string) : RAct (Z * option RedisErr) :=
  fun rs => let (rs', r) := redis_Get_Int64 key rs in (r, rs', [CmdGet key r]).

Definition do_IncrBy (key : string) (n : Z) : RAct (Z * option RedisErr) :=
  fun rs => let (rs', r) := redis_IncrBy key n rs in (r, rs', [CmdIncrBy key n r]).

Definition do_Set (key : string) (v ttl : Z) : RAct (string * option RedisErr) :=
  fun rs => let (rs', r) := redis_Set key v ttl rs in (r, rs', [CmdSet key v ttl r]).

Definition do_Decr (key : string) : RAct (Z * option RedisErr) :=
  fun rs => let (rs', r) := redis_Decr key rs in (r, rs', [CmdDecr key r]).

(** The key of the bucket of a client on a route. *)
Definition limit_key (apiPath clientIP : string) : string :=
  "rate_limit:" ++ apiPath ++ ":" ++ clientIP.

(** The second half of the handler: take a token. *)
Definition take_token {D : Type} (limitKey : string) : RAct (@Served D) :=
  rbind (do_Decr limitKey) (fun d =>
  if (fst d <? 0)%Z
  then rret (Aborted (common.Fail 429 "请求过于频繁，请稍后再试"))
  else rret Passed).

(** The handler [RateLimit(redisClient, limit, interval)] returns, run on
    one request.  [clientIP] and [apiPath] are what [c.ClientIP()] and
    [c.FullPath()] return, [now1] and [now2] what the two calls of
    [time.Now().Unix()] return.  [interval] is in nanoseconds; [seconds]
    is the value of [int64(interval.Seconds())], a floating-point
    conversion that is computed outside. *)
Definition RateLimit {D : Type} (limit interval seconds : Z)
  (clientIP apiPath : string) (now1 now2 : Z) : RAct (@Served D) :=
  let limitKey := limit_key apiPath clientIP in
  rbind (do_SetNX (limitKey ++ ":last_refill") now1 (int64_mul interval 2)) (fun r =>
  match snd r with
  | Some _ => rret (Aborted (common.Error "限流初始化失败"))
  | None =>
      rbind (do_Get (limitKey ++ ":last_refill")) (fun g =>
      let lastRefill := fst g in
      let now := now2 in
      let elapsed := int64_sub now lastRefill in
      if (elapsed >? 0)%Z then
        if (seconds =? 0)%Z then rret Panicked
        else
          let tokensToAdd := int64_quot (int64_mul elapsed limit) seconds in
          if (tokensToAdd >? 0)%Z then
            rbind (do_IncrBy limitKey tokensToAdd) (fun _ =>
            rbind (do_Set (limitKey ++ ":last_refill") now (int64_mul interval 2)) (fun _ =>
            take_token limitKey))
          else take_token limitKey
      else take_token limitKey)
  end).

Definition is_Decr (c : RedisCmd) : bool :=
  match c with CmdDecr _ _ => true | _ => false end.

Definition is_IncrBy (c : RedisCmd) : bool :=
  match c with CmdIncrBy _ _ _ => true | _ => false end.

End RateLimiter.

(** * The Hystrix interceptor ([MicroRateLimit], package [middleware]) *)

(** [hystrix.CommandConfig]; a field left out of a literal is 0. *)
Record CommandConfig := mkCommandConfig {
  Timeout : Z;
  MaxConcurrentRequests : Z;
  RequestVolumeThreshold : Z;
  SleepWindow : Z;
  ErrorPercentThreshold : Z
}.

(** The two calls into [hystrix-go].  [World] is everything the wrapped
    handler and the library can change, [Err] the Go errors.  [hystrix.Do]
    is given the two closures; the local variables they capture travel
    with the world, in [L]. *)
Class HystrixAPI := {
  World : Type;
  Err : Type;
  hystrix_ConfigureCommand : string -> CommandConfig -> World -> World;
  hystrix_Do :
    forall {L : Type},
      string ->
      (L * World -> (L * World) * option Err) ->
      (Err -> L * World -> (L * World) * option Err) ->
      L * World -> (L * World) * option Err
}.

Section Interceptor.
Context `{hystrix : HystrixAPI}.

(** The closure passed as [run]: it stores the result of [next] in the
    captured [err] and returns it. *)
Definition run_next (next : World -> World * option Err)
  : option Err * World -> (option Err * World) * option Err :=
  fun s =>
    let (w', e) := next (snd s) in
    ((e, w'), e).

(** The closure passed as [fallback]: it returns its argument. *)
Definition fallback_id (e : Err)
  : option Err * World -> (option Err * World) * option Err :=
  fun s => (s, Some e).

(** The interceptor [MicroRateLimit(maxConcurrent)] returns, run on one
    request.  [service] and [endpoint] are what [req.Service()] and
    [req.Endpoint()] return; [next] is the wrapped handler applied to the
    context, the request and the response. *)
Definition MicroRateLimit (maxConcurrent : Z) (service endpoint : string)
  (next : World -> World * option Err) (w : World) : World * option Err :=
  let commandName := service ++ "." ++ endpoint in
  let w1 := hystrix_ConfigureCommand commandName
              {| Timeout := 3000;
                 MaxConcurrentRequests := maxConcurrent;
                 RequestVolumeThreshold := 0;
                 SleepWindow := 0;
                 ErrorPercentThreshold := 0 |} w in
  let err : option Err := None in
  let '((err, w2), _) :=
    hystrix_Do commandName (run_next next) fallback_id (err, w1) in
  (w2, err).

End Interceptor.

(** * Stand-ins for Redis and Hystrix

    They are used to run the limiter and the interceptor on concrete
    requests. *)

(** An in-memory Redis holding integers; expiry is left out.  When [down]
    every command reports an error and changes nothing. *)
Record MemRedis := mkMemRedis {
  kv : StrMap.t Z;
  down : bool
}.

Definition mem_get (key : string) (rs : MemRedis) : Z :=
  match StrMap.find key (kv rs) with Some v => v | None => 0%Z end.

Definition mem_put (key : string) (v : Z) (rs : MemRedis) : MemRedis :=
  {| kv := StrMap.add key v (kv rs); down := down rs |}.

#[export] Instance MemRedisAPI : RedisAPI := {|
  Redis := MemRedis;
  RedisErr := string;
  redis_SetNX := fun key v _ rs =>
    if down rs then (rs, (false, Some "connection refused"))
    else if StrMap.mem key (kv rs) then (rs, (false, None))
    else (mem_put key v rs, (true, None));
  redis_Get_Int64 := fun key rs =>
    if down rs then (rs, (0%Z, Some "connection refused"))
    else match StrMap.find key (kv rs) with
         | Some v => (rs, (v, None))
         | None => (rs, (0%Z, Some "redis: nil"))
         end;
  redis_IncrBy := fun key n rs =>
    if down rs then (rs, (0%Z, Some "connection refused"))
    else (mem_put key (mem_get key rs + n) rs, ((mem_get key rs + n)%Z, None));
  redis_Set := fun key v _ rs =>
    if down rs then (rs, ("", Some "connection refused"))
    else (mem_put key v rs, ("OK", None));
  redis_Decr := fun key rs =>
    if down rs then (rs, (0%Z, Some "connection refused"))
    else (mem_put key (mem_get key rs - 1) rs, ((mem_get key rs - 1)%Z, None))
|}.

Definition redis_empty : MemRedis := {| kv := StrMap.empty Z; down := false |}.
Definition redis_down : MemRedis := {| kv := StrMap.empty Z; down := true |}.

(** A store in which the bucket of 10.0.0.1 on /api/register was last
    refilled at second 1000. *)
Definition redis_refilled_at_1000 : MemRedis :=
  mem_put "rate_limit:/api/register:10.0.0.1:last_refill" 1000 redis_empty.

(** A circuit breaker that is open or closed, counting the handler calls
    it let through. *)
Record Breaker := mkBreaker {
  breaker_open : bool;
  handled : nat
}.

#[export] Instance ToyHystrix : HystrixAPI := {|
  World := Breaker;
  Err := string;
  hystrix_ConfigureCommand := fun _ _ w => w;
  hystrix_Do := fun L _ run fallback s =>
    if breaker_open (snd s)
    then fallback "hystrix: circuit open" s
    else
      let (s', r) := run s in
      match r with
      | None => (s', None)
      | Some e => fallback e s'
      end
|}.

(** A wrapped handler that counts its calls and fails. *)
Definition failing_handler (w : Breaker) : Breaker * option string :=
  ({| breaker_open := breaker_open w; handled := S (handled w) |},
   Some "handler failed").

(** The text of an error of the scripted etcd store: the error itself. *)
Definition scripted_text : @StoreErr ScriptedEtcd -> string := fun e => e.

Definition alice : user.RegisterRequest :=
  {| user.Username := "alice"; user.Password := "secret"; user.Email := "a@example.com" |}.

Definition alice_again : user.RegisterRequest :=
  {| user.Username := "alice"; user.Password := "other"; user.Email := "" |}.

Definition bob : user.RegisterRequest :=
  {| user.Username := "bob"; user.Password := "hunter2"; user.Email := "b@example.com" |}.

Definition nameless : user.RegisterRequest :=
  {| user.Username := ""; user.Password := "secret"; user.Email := "" |}.

(** * The coordination store and the mutex protocol, from the specification

    The etcd library is not among the sources.  What its store, sessions
    and mutex do is taken from the specification (sections 3, 4.1 to 4.3,
    6 and 7) and given as one more implementation of [EtcdAPI], on which
    several callers of [lock.go] run against one store. *)

(** Modelled from the spec: the Queue Entry of section 3, which is absent
    from the sources: a prefix, the lease of the session it was created
    under (its session-scoped suffix) and the revision the store assigned
    at creation. *)
Record Entry := mkEntry {
  e_prefix : string;
  e_lease : nat;
  e_rev : nat
}.

(** Modelled from the spec: the coordination store of sections 2 and 6,
    which is absent from the sources: the Active leases and the next
    lease identifier, the live queue entries and the next revision
    (revisions are strictly increasing and unique, section 4.2).  Time and
    the network are not part of the store; what they bring is read from
    two lists: whether each coming round-trip reaches the store
    ([answers]; an exhausted list means it does), and which leases lapse,
    in order, while a call is waiting ([lapses]). *)
Record SpecStore := mkSpecStore {
  leases : list nat;
  next_lease : nat;
  queue : list Entry;
  next_rev : nat;
  answers : list bool;
  lapses : list nat
}.

(** Modelled from the spec: the error taxonomy of section 7, which is
    absent from the sources. *)
Inductive SpecErr :=
| ErrStoreUnavailable
| ErrTimeout
| ErrCancelled
| ErrLeaseExpired.

(** Modelled from the spec: the caller-supplied deadline or cancel signal
    of sections 4.3 and 5, absent from the sources: how many changes of
    the store the caller waits through before its deadline passes, or
    before it cancels. *)
Inductive SpecCtx :=
| Deadline (patience : nat)
| CancelAfter (patience : nat).

Definition patience_of (ctx : SpecCtx) : nat :=
  match ctx with Deadline n => n | CancelAfter n => n end.

Definition gives_up_with (ctx : SpecCtx) : SpecErr :=
  match ctx with Deadline _ => ErrTimeout | CancelAfter _ => ErrCancelled end.

(** Modelled from the spec: StoreUnavailable, the transient failure of
    section 7, absent from the sources: whether the coming round-trip
    reaches the store. *)
Definition answer (st : SpecStore) : bool * SpecStore :=
  match answers st with
  | [] => (true, st)
  | b :: bs =>
      (b, {| leases := leases st; next_lease := next_lease st;
             queue := queue st; next_rev := next_rev st;
             answers := bs; lapses := lapses st |})
  end.

(** Modelled from the spec: [LeaseCreate] of section 6, absent from the
    sources: a new Active lease with a fresh identifier, or
    StoreUnavailable. *)
Definition LeaseCreate (st : SpecStore) : SpecStore * option nat :=
  let (ok, st1) := answer st in
  if ok
  then ({| leases := next_lease st1 :: leases st1;
           next_lease := S (next_lease st1);
           queue := queue st1; next_rev := next_rev st1;
           answers := answers st1; lapses := lapses st1 |},
        Some (next_lease st1))
  else (st1, None).

(** Modelled from the spec: what the store does when a lease ends,
    absent from the sources: the lease is no longer Active and all keys
    created under it are removed (sections 2, 3 and 4.1). *)
Definition drop_lease (s : nat) (st : SpecStore) : SpecStore :=
  {| leases := filter (fun x => negb (x =? s)%nat) (leases st);
     next_lease := next_lease st;
     queue := filter (fun e => negb (e_lease e =? s)%nat) (queue st);
     next_rev := next_rev st;
     answers := answers st; lapses := lapses st |}.

(** Modelled from the spec: [LeaseRevoke] of section 6, absent from the
    sources; [true] when the store was reached. *)
Definition LeaseRevoke (s : nat) (st : SpecStore) : SpecStore * bool :=
  let (ok, st1) := answer st in
  if ok then (drop_lease s st1, true) else (st1, false).

(** Modelled from the spec: the key of a queue entry, section 3, absent
    from the sources: its prefix with the suffix of its session. *)
Definition has_key (p : string) (s : nat) (e : Entry) : bool :=
  (e_prefix e =? p)%string && (e_lease e =? s)%nat.

(** Modelled from the spec: [PutIfAbsent] of section 6 as used by
    [Enroll] of section 4.2, absent from the sources: an atomic create of
    the key under the lease, which returns the revision the store assigns;
    it fails when the store is not reached or the key exists, and a key
    cannot be attached to a lease that is not Active. *)
Definition PutIfAbsent (p : string) (s : nat) (st : SpecStore)
  : SpecStore * (nat + SpecErr) :=
  let (ok, st1) := answer st in
  if negb ok then (st1, inr ErrStoreUnavailable)
  else if negb (existsb (Nat.eqb s) (leases st1)) then (st1, inr ErrLeaseExpired)
  else if existsb (has_key p s) (queue st1) then (st1, inr ErrStoreUnavailable)
  else ({| leases := leases st1; next_lease := next_lease st1;
           queue := {| e_prefix := p; e_lease := s; e_rev := next_rev st1 |}
                    :: queue st1;
           next_rev := S (next_rev st1);
           answers := answers st1; lapses := lapses st1 |},
        inl (next_rev st1)).

(** Modelled from the spec: [Delete] of section 6 as used by [Withdraw]
    of section 4.2, absent from the sources; [true] when the store was
    reached. *)
Definition Delete (p : string) (s : nat) (st : SpecStore) : SpecStore * bool :=
  let (ok, st1) := answer st in
  if ok
  then ({| leases := leases st1; next_lease := next_lease st1;
           queue := filter (fun e => negb (has_key p s e)) (queue st1);
           next_rev := next_rev st1;
           answers := answers st1; lapses := lapses st1 |}, true)
  else (st1, false).

(** Modelled from the spec: the ordering of the range read, section
    4.2, absent from the sources: ascending by revision (an insertion
    sort). *)
Fixpoint insert_by_rev (e : Entry) (l : list Entry) : list Entry :=
  match l with
  | [] => [e]
  | x :: l' => if (e_rev e <=? e_rev x)%nat then e :: l else x :: insert_by_rev e l'
  end.

Fixpoint sort_by_rev (l : list Entry) : list Entry :=
  match l with
  | [] => []
  | x :: l' => insert_by_rev x (sort_by_rev l')
  end.

(** Modelled from the spec: [RangeByPrefix] of section 6, absent from the
    sources: the live entries under the prefix, ascending by revision. *)
Definition RangeByPrefix (p : string) (st : SpecStore) : list Entry :=
  sort_by_rev (filter (fun e => (e_prefix e =? p)%string) (queue st)).

(** The index of the entry with this key in the range read. *)
Fixpoint position (p : string) (s : nat) (l : list Entry) : option nat :=
  match l with
  | [] => None
  | e :: l' => if has_key p s e then Some 0 else option_map S (position p s l')
  end.

(** Modelled from the spec: [Rank] of section 4.2, absent from the
    sources: the 0-based index of the entry in the ordered range read of
    its prefix, and the number of entries read; [None] when the entry is
    not live. *)
Definition Rank (p : string) (s : nat) (st : SpecStore) : option (nat * nat) :=
  match position p s (RangeByPrefix p st) with
  | Some n => Some (n, length (RangeByPrefix p st))
  | None => None
  end.

(** Modelled from the spec: the change notification a waiting caller
    receives, section 4.3, absent from the sources: a lease lapses, the
    next one of [lapses], and the store removes its entries. *)
Definition next_lapse (st : SpecStore) : option SpecStore :=
  match lapses st with
  | [] => None
  | s :: rest =>
      Some (drop_lease s
              {| leases := leases st; next_lease := next_lease st;
                 queue := queue st; next_rev := next_rev st;
                 answers := answers st; lapses := rest |})
  end.

(** Modelled from the spec: the Waiting state of the mutex protocol,
    section 4.3, absent from the sources.  With rank 0 the entry holds the
    minimum live revision: Held.  Otherwise the caller waits for the next
    change of the store and computes its rank again; when its patience is
    used up, or nothing more will change, it withdraws its entry (the
    withdrawal is attempted, and may not reach the store) and fails with
    the error of its context.  An entry that is no longer live means the
    session died while waiting. *)
Fixpoint wait_for_rank (patience : nat) (err : SpecErr) (p : string) (s : nat)
  (st : SpecStore) : SpecStore * option SpecErr :=
  match Rank p s st with
  | None => (st, Some ErrLeaseExpired)
  | Some (O, _) => (st, None)
  | Some (S _, _) =>
      match patience, next_lapse st with
      | S k, Some st' => wait_for_rank k err p s st'
      | _, _ => (fst (Delete p s st), Some err)
      end
  end.

(** Modelled from the spec: Acquire of the mutex protocol, section 4.3,
    absent from the sources: enroll in the contention queue, then wait
    for rank 0. *)
Definition spec_Mutex_Lock (m : nat * string) (ctx : SpecCtx) (st : SpecStore)
  : SpecStore * option SpecErr :=
  match PutIfAbsent (snd m) (fst m) st with
  | (st1, inr e) => (st1, Some e)
  | (st1, inl _) =>
      wait_for_rank (patience_of ctx) (gives_up_with ctx) (snd m) (fst m) st1
  end.

(** Modelled from the spec: Release of the mutex protocol, section 4.3,
    absent from the sources: withdraw the entry. *)
Definition spec_Mutex_Unlock (m : nat * string) (ctx : SpecCtx) (st : SpecStore)
  : SpecStore * option SpecErr :=
  let (st1, ok) := Delete (snd m) (fst m) st in
  (st1, if ok then None else Some ErrStoreUnavailable).

(** Modelled from the spec: [Open] of the lease session, section 4.1,
    absent from the sources; the time to live plays no part, since a
    lease lapses when [lapses] or the environment says so. *)
Definition spec_NewSession (cli : unit) (ttl : Z) (st : SpecStore)
  : SpecStore * (nat + SpecErr) :=
  match LeaseCreate st with
  | (st1, Some s) => (st1, inl s)
  | (st1, None) => (st1, inr ErrStoreUnavailable)
  end.

(** Modelled from the spec: [Close] of the lease session, section 4.1,
    absent from the sources: revoke the lease. *)
Definition spec_Session_Close (s : nat) (st : SpecStore)
  : SpecStore * option SpecErr :=
  let (st1, ok) := LeaseRevoke s st in
  (st1, if ok then None else Some ErrStoreUnavailable).

(** Modelled from the spec: the store client of section 6, absent from
    the sources; opening and closing the connection is a round-trip that
    changes neither leases nor entries. *)
Definition spec_round_trip (st : SpecStore) : SpecStore * option SpecErr :=
  let (ok, st1) := answer st in
  (st1, if ok then None else Some ErrStoreUnavailable).

(** Modelled from the spec: the store client, lease session and mutex
    protocol of sections 4 and 6, absent from the sources, as the
    library [lock.go] calls.  A session is its lease; a mutex is the key
    of its entry: the session and the prefix. *)
Definition SpecEtcd : EtcdAPI := {|
  Client := unit;
  Session := nat;
  Mutex := nat * string;
  context_Context := SpecCtx;
  StoreErr := SpecErr;
  Store := SpecStore;
  clientv3_New := fun _ st =>
    match spec_round_trip st with
    | (st1, None) => (st1, inl tt)
    | (st1, Some e) => (st1, inr e)
    end;
  concurrency_NewSession := spec_NewSession;
  concurrency_NewMutex := fun s pfx => (s, pfx);
  Mutex_Lock := spec_Mutex_Lock;
  Mutex_Unlock := spec_Mutex_Unlock;
  Session_Close := spec_Session_Close;
  Client_Close := fun _ st => spec_round_trip st
|}.

(** ** Several callers on one store *)

Section OnSpecStore.
#[local] Existing Instance SpecEtcd | 0.

(** The lock-manager instance of each caller. *)
Definition Callers : Type := nat -> EtcdDistLock.

Definition set_caller (cs : Callers) (i : nat) (l : EtcdDistLock)
  : Callers :=
  fun j => if (j =? i)%nat then l else cs j.

(** What happens next: a caller makes a call of [lock.go], which runs to
    its return, waiting included, or a lease lapses. *)
Inductive Happening :=
| Calls (caller : nat) (o : Op)
| Lapses (s : nat).

(** Any interleaving of the calls of the callers and of lapsing leases,
    on the shared store. *)
Fixpoint interleave (hs : list Happening) (cs : Callers) (st : SpecStore)
  : Callers * SpecStore :=
  match hs with
  | [] => (cs, st)
  | Calls i o :: hs' =>
      let r := run_op o (cs i) st in
      interleave hs' (set_caller cs i (fst (value r))) (store_of r)
  | Lapses s :: hs' => interleave hs' cs (drop_lease s st)
  end.

(** Modelled from the spec: the Held state of a Lock Handle, sections 3,
    4.1 and 4.3, absent from the sources: the handle records its session
    and its mutex (in [lock.go], both fields are set), and the queue entry
    of that mutex is live; a handle whose entry the store has removed,
    because its session expired, is invalid from that moment. *)
Definition Held (st : SpecStore) (l : EtcdDistLock) : bool :=
  match session l, mutex l with
  | Some _, Some m => existsb (has_key (snd m) (fst m)) (queue st)
  | _, _ => false
  end.









(** The reading of the specification that [Lock] is compared with: when
    the call fails, no entry of a session it created is left in the
    queue. *)
Definition leaves_no_stale_member
  (r : (EtcdDistLock * option error) * SpecStore
       * list Event) : Prop :=
  snd (value r) <> None ->
  forall cli ttl s e,
    In (EvNewSession cli ttl (inl s)) (events r) ->
    In e (queue (store_of r)) -> e_lease e <> s.

(** Two callers for the resource of [main]. *)
Definition two_callers : Callers := fun _ =>
  {| etcdClient := Some tt; session := None; mutex := None;
     lockPrefix := test_resource |}.

(** A store in which another participant holds the resource of [main]
    through lease 0, with the answers to come. *)
Definition spec_held_by_other (bs : list bool) : SpecStore :=
  {| leases := [0%nat]; next_lease := 1;
     queue := [{| e_prefix := test_resource; e_lease := 0; e_rev := 0 |}];
     next_rev := 1; answers := bs; lapses := [] |}.

(** An empty store, with the answers and lapses to come. *)
Definition spec_store (bs : list bool) (ls : list nat) : SpecStore :=
  {| leases := []; next_lease := 0; queue := []; next_rev := 0;
     answers := bs; lapses := ls |}.

(** An instance as [NewEtcdDistLock] builds it on this store. *)
Definition spec_lock (pfx : string) : EtcdDistLock :=
  {| etcdClient := Some tt; session := None; mutex := None; lockPrefix := pfx |}.

End OnSpecStore.

(** * Proofs *)

Section PathLemmas.
Context `{api : EtcdAPI}.

Ltac unfold_act :=
  unfold bind, ret, do_New, do_NewSession, do_NewMutex, do_MutexLock,
    do_MutexUnlock, do_SessionClose, do_ClientClose, log_Println.

(** [Lock] follows one of its four paths. *)
Lemma Lock_path (l : EtcdDistLock) (ctx : context_Context) (ttl : Z) (st : Store) :
  LockPath l ctx ttl st (Lock l ctx ttl st).
Proof.
  unfold Lock.
  destruct (etcdClient l) as [cli|] eqn:Hcli.
  - unfold_act.
    destruct (concurrency_NewSession cli ttl st) as [st1 [sess|err]] eqn:Hs.
    + destruct (Mutex_Lock (concurrency_NewMutex sess (lockPrefix l)) ctx st1)
        as [st2 [err|]] eqn:Hm.
      * destruct (Session_Close sess st2) as [st3 r] eqn:Hc.
        cbn. eapply LockRefused; eassumption.
      * cbn. rewrite <- Hcli. eapply LockGranted; eassumption.
    + cbn. eapply LockNoSession; eassumption.
  - apply LockNoClient. assumption.
Qed.

(** [Unlock] follows one of its three paths. *)
Lemma Unlock_path (l : EtcdDistLock) (ctx : context_Context) (st : Store) :
  UnlockPath l ctx st (Unlock l ctx st).
Proof.
  unfold Unlock.
  destruct (mutex l) as [mu|] eqn:Hmu.
  - destruct (session l) as [sess|] eqn:Hse.
    + unfold_act.
      destruct (Mutex_Unlock mu ctx st) as [st1 [err|]] eqn:Hu.
      * cbn. eapply UnlockRefused; eassumption.
      * destruct (Session_Close sess st1) as [st2 r] eqn:Hc.
        cbn. eapply UnlockDone; eassumption.
    + apply UnlockNotHeld. unfold held. rewrite Hmu, Hse. reflexivity.
  - apply UnlockNotHeld. unfold held. rewrite Hmu. reflexivity.
Qed.

End PathLemmas.

Section Facade.
Context `{api : EtcdAPI}.

(** ** Shared facts *)

Lemma held_true (l : EtcdDistLock) :
  held l = true <-> exists mu sess, mutex l = Some mu /\ session l = Some sess.
Proof.
  unfold held. split.
  - destruct (mutex l) as [mu|]; [destruct (session l) as [sess|]|];
      try discriminate.
    intros _. exists mu, sess. split; reflexivity.
  - intros (mu & sess & Hm & Hs). rewrite Hm, Hs. reflexivity.
Qed.

Lemma held_false (l : EtcdDistLock) :
  held l = false <-> mutex l = None \/ session l = None.
Proof.
  unfold held. split.
  - destruct (mutex l); [destruct (session l)|]; try discriminate; auto.
  - intros [H|H]; rewrite H; [reflexivity|].
    destruct (mutex l); reflexivity.
Qed.

(** A call that does not pass the guard of [Unlock] changes nothing. *)
Lemma Unlock_not_held (l : EtcdDistLock) (ctx : context_Context) (st : Store) :
  held l = false -> Unlock l ctx st = ((l, Some ErrNotHeld), st, []).
Proof.
  intros H. apply held_false in H. unfold Unlock.
  destruct H as [H|H]; rewrite H; [reflexivity|].
  destruct (mutex l); reflexivity.
Qed.

(** [Unlock] returns nil only on its last path. *)
Lemma Unlock_nil_inv (l : EtcdDistLock) (ctx : context_Context) (st : Store) :
  snd (value (Unlock l ctx st)) = None ->
  exists mu sess st1 st2 r,
    mutex l = Some mu /\ session l = Some sess /\
    Mutex_Unlock mu ctx st = (st1, None) /\
    Session_Close sess st1 = (st2, r) /\
    Unlock l ctx st =
      (({| etcdClient := etcdClient l; session := None; mutex := None;
           lockPrefix := lockPrefix l |}, None), st2,
       [EvLog "尝试释放分布式锁..."; EvMutexUnlock mu ctx None;
        EvSessionClose sess r; EvLog "成功释放分布式锁"]).
Proof.
  intros Hnil.
  destruct (Unlock_path l ctx st) as [Hh|mu sess st1 err Hm Hs Hu|mu sess st1 st2 r Hm Hs Hu Hc];
    try discriminate Hnil.
  exists mu, sess, st1, st2, r. repeat split; assumption.
Qed.

(** [Lock] returns nil only on its last path. *)
Lemma Lock_nil_inv (l : EtcdDistLock) (ctx : context_Context) (ttl : Z) (st : Store) :
  snd (value (Lock l ctx ttl st)) = None ->
  exists cli st1 sess st2,
    etcdClient l = Some cli /\
    concurrency_NewSession cli ttl st = (st1, inl sess) /\
    Mutex_Lock (concurrency_NewMutex sess (lockPrefix l)) ctx st1 = (st2, None) /\
    Lock l ctx ttl st =
      (({| etcdClient := etcdClient l; session := Some sess;
           mutex := Some (concurrency_NewMutex sess (lockPrefix l));
           lockPrefix := lockPrefix l |}, None), st2,
       [EvNewSession cli ttl (inl sess); EvNewMutex sess (lockPrefix l);
        EvLog "尝试获取分布式锁...";
        EvMutexLock (concurrency_NewMutex sess (lockPrefix l)) ctx None;
        EvLog "成功获取分布式锁"]).
Proof.
  intros Hnil.
  destruct (Lock_path l ctx ttl st)
    as [Hc|cli st1 err Hc Hs|cli st1 sess st2 err st3 r Hc Hs Hm Hx|cli st1 sess st2 Hc Hs Hm];
    try discriminate Hnil.
  exists cli, st1, sess, st2. repeat split; assumption.
Qed.

(** A failed [Lock] hands the receiver back as it was. *)
Lemma Lock_err_same (l : EtcdDistLock) (ctx : context_Context) (ttl : Z) (st : Store) :
  snd (value (Lock l ctx ttl st)) <> None ->
  fst (value (Lock l ctx ttl st)) = l.
Proof.
  intros Herr.
  destruct (Lock_path l ctx ttl st); try reflexivity.
  exfalso. apply Herr. reflexivity.
Qed.

Lemma Close_same (l : EtcdDistLock) (st : Store) :
  fst (value (Close l st)) = l.
Proof.
  unfold Close. destruct (etcdClient l) as [cli|]; [|reflexivity].
  unfold bind, ret, do_ClientClose.
  destruct (Client_Close cli st) as [st1 r]. reflexivity.
Qed.

Lemma New_fields (eps : list string) (pfx : string) (st : Store) (l : EtcdDistLock) :
  value (NewEtcdDistLock eps pfx st) = inl l ->
  exists cli, l = {| etcdClient := Some cli; session := None; mutex := None;
                     lockPrefix := pfx |}.
Proof.
  unfold NewEtcdDistLock, bind, ret, do_New.
  destruct (clientv3_New _ st) as [st1 [cli|err]]; cbn; intros H.
  - exists cli. congruence.
  - discriminate H.
Qed.

Lemma Lock_paired (l : EtcdDistLock) (ctx : context_Context) (ttl : Z) (st : Store) :
  paired l -> paired (fst (value (Lock l ctx ttl st))).
Proof.
  intros Hp. destruct (Lock_path l ctx ttl st); try exact Hp.
  unfold paired; cbn. split; discriminate.
Qed.

Lemma Unlock_paired (l : EtcdDistLock) (ctx : context_Context) (st : Store) :
  paired l -> paired (fst (value (Unlock l ctx st))).
Proof.
  intros Hp. destruct (Unlock_path l ctx st); try exact Hp.
  unfold paired; cbn. split; reflexivity.
Qed.

Lemma run_op_paired (o : Op) (l : EtcdDistLock) (st : Store) :
  paired l -> paired (fst (value (run_op o l st))).
Proof.
  destruct o as [ctx ttl|ctx|]; cbn [run_op]; intros Hp.
  - apply Lock_paired, Hp.
  - apply Unlock_paired, Hp.
  - rewrite Close_same. exact Hp.
Qed.

(** The invariant along any sequence of calls. *)
Lemma run_ops_paired (os : list Op) :
  forall (l : EtcdDistLock) (st : Store),
    paired l -> paired (value (run_ops os l st)).
Proof.
  induction os as [|o os IH]; intros l st Hp; cbn [run_ops].
  - exact Hp.
  - unfold bind.
    pose proof (run_op_paired o l st Hp) as Hstep.
    destruct (run_op o l st) as [[r st1] t1].
    specialize (IH (fst r) st1 Hstep).
    destruct (run_ops os (fst r) st1) as [[l2 st2] t2].
    exact IH.
Qed.

(** ** Properties of the facade *)

(** C8: on an instance whose [etcdClient] is nil, [Lock] returns the
    "client not initialised" error at once and [Close] returns nil; neither
    makes any call into the client library, and the store and the instance
    are left as they were. *)
Theorem nil_client_is_not_dereferenced (l : EtcdDistLock) (H : etcdClient l = None) :
  (forall ctx ttl st, Lock l ctx ttl st = ((l, Some ErrClientNil), st, [])) /\
  (forall st, Close l st = ((l, None), st, [])).
Proof.
  split; intros.
  - unfold Lock. rewrite H. reflexivity.
  - unfold Close. rewrite H. reflexivity.
Qed.

(** C2: after an [Unlock] that returned nil both handle fields are nil,
    and a second [Unlock] on that instance (later, whatever the store has
    become) returns the "not held" error, touching nothing; so does
    [Unlock] on any instance that does not hold the lock, in particular
    on one fresh from [NewEtcdDistLock]. *)
Theorem second_Unlock_is_NotHeld :
  (forall l ctx st,
      snd (value (Unlock l ctx st)) = None ->
      let l' := fst (value (Unlock l ctx st)) in
      session l' = None /\ mutex l' = None /\
      forall ctx2 st2, Unlock l' ctx2 st2 = ((l', Some ErrNotHeld), st2, [])) /\
  (forall l ctx st,
      held l = false -> Unlock l ctx st = ((l, Some ErrNotHeld), st, [])) /\
  (forall eps pfx st0 l ctx st,
      value (NewEtcdDistLock eps pfx st0) = inl l ->
      Unlock l ctx st = ((l, Some ErrNotHeld), st, [])).
Proof.
  split; [|split].
  - intros l ctx st Hnil.
    destruct (Unlock_nil_inv l ctx st Hnil) as (mu & sess & st1 & st2 & r & _ & _ & _ & _ & Heq).
    rewrite Heq. cbn. repeat split.
  - intros l ctx st Hh. apply Unlock_not_held, Hh.
  - intros eps pfx st0 l ctx st Hnew.
    destruct (New_fields eps pfx st0 l Hnew) as [cli ->]. reflexivity.
Qed.

(** C9: [NewEtcdDistLock] builds an instance whose [session] and [mutex]
    are both nil, and [Lock], [Unlock] and [Close] each keep
    "session is nil iff mutex is nil", whatever the store answers; a
    [Lock] that returns nil sets both fields and an [Unlock] that returns
    nil clears both. *)
Theorem session_nil_iff_mutex_nil :
  (forall eps pfx st l, value (NewEtcdDistLock eps pfx st) = inl l -> paired l) /\
  (forall l ctx ttl st, paired l -> paired (fst (value (Lock l ctx ttl st)))) /\
  (forall l ctx st, paired l -> paired (fst (value (Unlock l ctx st)))) /\
  (forall l st, paired l -> paired (fst (value (Close l st)))) /\
  (forall l ctx ttl st,
      snd (value (Lock l ctx ttl st)) = None ->
      session (fst (value (Lock l ctx ttl st))) <> None /\
      mutex (fst (value (Lock l ctx ttl st))) <> None) /\
  (forall l ctx st,
      snd (value (Unlock l ctx st)) = None ->
      session (fst (value (Unlock l ctx st))) = None /\
      mutex (fst (value (Unlock l ctx st))) = None).
Proof.
  split; [|split; [|split; [|split; [|split]]]].
  - intros eps pfx st l Hnew.
    destruct (New_fields eps pfx st l Hnew) as [cli ->].
    unfold paired; cbn. split; reflexivity.
  - intros l ctx ttl st. apply Lock_paired.
  - intros l ctx st. apply Unlock_paired.
  - intros l st Hp. rewrite Close_same. exact Hp.
  - intros l ctx ttl st Hnil.
    destruct (Lock_nil_inv l ctx ttl st Hnil) as (cli & st1 & sess & st2 & _ & _ & _ & Heq).
    rewrite Heq. cbn. split; discriminate.
  - intros l ctx st Hnil.
    destruct (Unlock_nil_inv l ctx st Hnil) as (mu & sess & st1 & st2 & r & _ & _ & _ & _ & Heq).
    rewrite Heq. cbn. split; reflexivity.
Qed.

(** C10: a [Lock] that returns an error leaves the instance as it was, so
    [session] and [mutex], nil before, are still nil; an [Unlock] whose
    [mutex.Unlock] round-trip fails returns that error before the session
    is closed or the fields are cleared, the instance still passes the
    guard, and a later [Unlock] whose round-trip succeeds releases it. *)
Theorem failed_call_changes_nothing :
  (forall l ctx ttl st,
      snd (value (Lock l ctx ttl st)) <> None ->
      let l' := fst (value (Lock l ctx ttl st)) in
      l' = l /\
      (session l = None -> mutex l = None -> session l' = None /\ mutex l' = None)) /\
  (forall l mu sess ctx st st1 err,
      mutex l = Some mu -> session l = Some sess ->
      Mutex_Unlock mu ctx st = (st1, Some err) ->
      Unlock l ctx st =
        ((l, Some (fmt_Errorf "释放分布式锁失败：" (etcd_error err))), st1,
         [EvLog "尝试释放分布式锁..."; EvMutexUnlock mu ctx (Some err)]) /\
      held l = true /\
      forall ctx2 st2 st3,
        Mutex_Unlock mu ctx2 st2 = (st3, None) ->
        snd (value (Unlock l ctx2 st2)) = None /\
        In (EvMutexUnlock mu ctx2 None) (events (Unlock l ctx2 st2))).
Proof.
  split.
  - intros l ctx ttl st Herr l'. subst l'.
    rewrite (Lock_err_same l ctx ttl st Herr). auto.
  - intros l mu sess ctx st st1 err Hm Hs Hu. split; [|split].
    + unfold Unlock. rewrite Hm, Hs.
      unfold bind, ret, log_Println, do_MutexUnlock. rewrite Hu. reflexivity.
    + apply held_true. exists mu, sess. auto.
    + intros ctx2 st2 st3 Hu2.
      unfold Unlock. rewrite Hm, Hs.
      unfold bind, ret, log_Println, do_MutexUnlock, do_SessionClose. rewrite Hu2.
      destruct (Session_Close sess st3) as [st4 r]. cbn. auto.
Qed.

(** When [mutex.Lock] returns an error (the context was cancelled or
    its deadline passed while waiting), [Lock] closes the session it had
    just created, as its last call into the library, and then returns the
    wrapped error; the instance is unchanged.  What the store does on
    [Session.Close] is not part of this statement. *)
Theorem cancelled_Lock_closes_its_session
  (l : EtcdDistLock) (ctx : context_Context) (ttl : Z) (st st1 st2 : Store)
  (cli : Client) (sess : Session) (err : StoreErr)
  (Hcli : etcdClient l = Some cli)
  (Hsess : concurrency_NewSession cli ttl st = (st1, inl sess))
  (Hwait : Mutex_Lock (concurrency_NewMutex sess (lockPrefix l)) ctx st1 = (st2, Some err)) :
  Lock l ctx ttl st =
    ((l, Some (fmt_Errorf "获取分布式锁失败：" (etcd_error err))),
     fst (Session_Close sess st2),
     [EvNewSession cli ttl (inl sess);
      EvNewMutex sess (lockPrefix l);
      EvLog "尝试获取分布式锁...";
      EvMutexLock (concurrency_NewMutex sess (lockPrefix l)) ctx (Some err);
      EvSessionClose sess (snd (Session_Close sess st2))]).
Proof.
  unfold Lock. rewrite Hcli.
  unfold bind, ret, do_NewSession, do_NewMutex, log_Println, do_MutexLock,
    do_SessionClose.
  rewrite Hsess, Hwait.
  destruct (Session_Close sess st2) as [st3 r]. reflexivity.
Qed.

Lemma count_app (p : Event -> bool) (a b : list Event) :
  count p (a ++ b) = (count p a + count p b)%nat.
Proof.
  unfold count. rewrite filter_app, length_app. reflexivity.
Qed.

(** A cycle that succeeds opens one session and closes one. *)
Lemma cycle_counts (ctx : context_Context) (ttl : Z) (l : EtcdDistLock) (st : Store) :
  snd (value (cycle ctx ttl l st)) = None ->
  count is_NewSession (events (cycle ctx ttl l st)) = 1%nat /\
  count is_SessionClose (events (cycle ctx ttl l st)) = 1%nat.
Proof.
  unfold cycle, bind.
  destruct (Lock_path l ctx ttl st)
    as [Hc|cli st1 err Hc Hs|cli st1 sess st2 err st3 r Hc Hs Hm Hx|cli st1 sess st2 Hc Hs Hm];
    unfold ret; cbn [snd fst value events]; try discriminate.
  match goal with |- context [Unlock ?l1 ctx st2] =>
    destruct (Unlock_path l1 ctx st2) as [Hh|mu s' st3 err Hm' Hs' Hu|mu s' st3 st4 r Hm' Hs' Hu Hx]
  end; cbn; try discriminate.
  intros _. split; reflexivity.
Qed.

(** C3 (amended): the session is not shared between cycles.  When [n]
    acquire/release cycles on one instance all succeed, [NewSession] was
    called [n] times and [Session.Close] was called [n] times: every
    [Lock] opens a session of its own and the [Unlock] that follows
    closes it. *)
Theorem each_cycle_opens_and_closes_a_session (n : nat) :
  forall (ctx : context_Context) (ttl : Z) (l : EtcdDistLock) (st : Store),
    snd (value (cycles n ctx ttl l st)) = None ->
    count is_NewSession (events (cycles n ctx ttl l st)) = n /\
    count is_SessionClose (events (cycles n ctx ttl l st)) = n.
Proof.
  induction n as [|n IH]; intros ctx ttl l st Hnil.
  - split; reflexivity.
  - cbn [cycles] in *. unfold bind in *.
    pose proof (cycle_counts ctx ttl l st) as Hone.
    destruct (cycle ctx ttl l st) as [[[l1 e1] st1] t1].
    cbn [snd fst value events] in *.
    destruct e1 as [err|].
    + cbn in Hnil. discriminate Hnil.
    + specialize (IH ctx ttl l1 st1).
      destruct (cycles n ctx ttl l1 st1) as [[[l2 e2] st2] t2].
      cbn [snd fst value events] in *.
      destruct (Hone eq_refl) as [Ha Hb].
      destruct (IH Hnil) as [Hc Hd].
      rewrite !count_app, Ha, Hb, Hc, Hd. split; reflexivity.
Qed.

(** C4 (amended): [Close] closes the store client and nothing else.  With
    a client it makes the one call [etcdClient.Close] and returns its
    result; without one it does nothing and returns nil.  It never calls
    [Session.Close], and it leaves [session] and [mutex] as they were. *)
Theorem Close_closes_only_the_client (l : EtcdDistLock) (st : Store) :
  match etcdClient l with
  | Some cli =>
      Close l st =
        ((l, option_map etcd_error (snd (Client_Close cli st))),
         fst (Client_Close cli st),
         [EvClientClose cli (snd (Client_Close cli st))])
  | None => Close l st = ((l, None), st, [])
  end /\
  count is_SessionClose (events (Close l st)) = 0%nat /\
  (forall s, ~ tears_down s (events (Close l st))) /\
  session (fst (value (Close l st))) = session l /\
  mutex (fst (value (Close l st))) = mutex l.
Proof.
  unfold Close, tears_down.
  destruct (etcdClient l) as [cli|].
  - unfold bind, ret, do_ClientClose.
    destruct (Client_Close cli st) as [st1 r]. cbn.
    repeat split; try reflexivity.
    intros s [r' [H|[]]]. discriminate H.
  - cbn. repeat split; try reflexivity.
    intros s [r' []].
Qed.

(** Every mutex [Lock] creates is for the prefix stored in the instance. *)
Lemma Lock_NewMutex_prefix (l : EtcdDistLock) (ctx : context_Context) (ttl : Z)
  (st : Store) (s : Session) (name : string) :
  In (EvNewMutex s name) (events (Lock l ctx ttl st)) ->
  name = lockPrefix l /\
  exists cli, In (EvNewSession cli ttl (inl s)) (events (Lock l ctx ttl st)).
Proof.
  destruct (Lock_path l ctx ttl st)
    as [Hc|cli st1 err Hc Hs|cli st1 sess st2 err st3 r Hc Hs Hm Hx|cli st1 sess st2 Hc Hs Hm];
    cbn; intros Hin.
  - destruct Hin.
  - destruct Hin as [Hin|[]]. discriminate Hin.
  - destruct Hin as [Hin|[Hin|[Hin|[Hin|[Hin|[]]]]]]; try discriminate Hin.
    injection Hin as -> ->. split; [reflexivity|]. exists cli. left. reflexivity.
  - destruct Hin as [Hin|[Hin|[Hin|[Hin|[Hin|[]]]]]]; try discriminate Hin.
    injection Hin as -> ->. split; [reflexivity|]. exists cli. left. reflexivity.
Qed.

Lemma Lock_keeps_prefix (l : EtcdDistLock) (ctx : context_Context) (ttl : Z) (st : Store) :
  lockPrefix (fst (value (Lock l ctx ttl st))) = lockPrefix l.
Proof. destruct (Lock_path l ctx ttl st); reflexivity. Qed.

Lemma Unlock_keeps_prefix (l : EtcdDistLock) (ctx : context_Context) (st : Store) :
  lockPrefix (fst (value (Unlock l ctx st))) = lockPrefix l.
Proof. destruct (Unlock_path l ctx st); reflexivity. Qed.

(** C6 (amended): the resource name is fixed when the instance is built,
    not given per call.  [NewEtcdDistLock] stores its [lockPrefix]
    argument; [Lock], [Unlock] and [Close] never change it; [Lock] takes a
    context and a TTL only, and every mutex it creates is for the stored
    prefix, on a session created by that same call. *)
Theorem resource_name_is_fixed_per_instance :
  (forall eps pfx st l,
      value (NewEtcdDistLock eps pfx st) = inl l -> lockPrefix l = pfx) /\
  (forall o l st, lockPrefix (fst (value (run_op o l st))) = lockPrefix l) /\
  (forall l ctx ttl st s name,
      In (EvNewMutex s name) (events (Lock l ctx ttl st)) ->
      name = lockPrefix l /\
      exists cli, In (EvNewSession cli ttl (inl s)) (events (Lock l ctx ttl st))).
Proof.
  split; [|split].
  - intros eps pfx st l Hnew.
    destruct (New_fields eps pfx st l Hnew) as [cli ->]. reflexivity.
  - intros [ctx ttl|ctx|] l st; cbn [run_op].
    + apply Lock_keeps_prefix.
    + apply Unlock_keeps_prefix.
    + rewrite Close_same. reflexivity.
  - intros l ctx ttl st s name. apply Lock_NewMutex_prefix.
Qed.

(** C7 (amended): [Lock] returns a non-nil error exactly when its guard
    fails or [NewSession] or [mutex.Lock] reports an error, and [Unlock]
    exactly when its guard fails or [mutex.Unlock] reports an error.  The
    result of [Session.Close] is not inspected: once [mutex.Unlock] has
    succeeded [Unlock] returns nil whatever [Session.Close] answers. *)
Theorem failed_steps_return_an_error :
  (forall l ctx ttl st,
      snd (value (Lock l ctx ttl st)) <> None <->
      etcdClient l = None \/
      existsb step_failed (events (Lock l ctx ttl st)) = true) /\
  (forall l ctx st,
      snd (value (Unlock l ctx st)) <> None <->
      held l = false \/
      existsb step_failed (events (Unlock l ctx st)) = true) /\
  (forall l mu sess ctx st st1,
      mutex l = Some mu -> session l = Some sess ->
      Mutex_Unlock mu ctx st = (st1, None) ->
      snd (value (Unlock l ctx st)) = None /\
      In (EvSessionClose sess (snd (Session_Close sess st1)))
         (events (Unlock l ctx st))).
Proof.
  split; [|split].
  - intros l ctx ttl st.
    destruct (Lock_path l ctx ttl st)
      as [Hc|cli st1 err Hc Hs|cli st1 sess st2 err st3 r Hc Hs Hm Hx|cli st1 sess st2 Hc Hs Hm];
      cbn; split; intros H; auto; try discriminate.
    destruct H as [H|H]; [congruence|discriminate H].
  - intros l ctx st.
    destruct (Unlock_path l ctx st)
      as [Hh|mu sess st1 err Hm Hs Hu|mu sess st1 st2 r Hm Hs Hu Hx];
      cbn; split; intros H; auto; try discriminate.
    destruct H as [H|H]; [|discriminate H].
    assert (held l = true) by (apply held_true; eauto). congruence.
  - intros l mu sess ctx st st1 Hm Hs Hu.
    unfold Unlock. rewrite Hm, Hs.
    unfold bind, ret, log_Println, do_MutexUnlock, do_SessionClose. rewrite Hu.
    destruct (Session_Close sess st1) as [st2 r]. cbn. auto.
Qed.

End Facade.

(** * The scripted store at work *)

Example New_demo :
  value (NewEtcdDistLock ["127.0.0.1:2379"] test_resource (script [])) = inl demo_lock /\
  store_of (NewEtcdDistLock ["127.0.0.1:2379"] test_resource (script [])) = started [].
Proof. split; reflexivity. Qed.

Example Lock_demo :
  value (Lock demo_lock tt 10 (started [])) = (demo_held, None).
Proof. reflexivity. Qed.

Example Unlock_demo :
  value (Unlock demo_held tt (started [])) = (demo_lock, None).
Proof. reflexivity. Qed.

Example Lock_demo_timeout :
  value (Lock demo_lock tt 10 (started [true; false])) =
    (demo_lock,
     Some (fmt_Errorf "获取分布式锁失败：" (etcd_error "unavailable"))).
Proof. reflexivity. Qed.

(** C8 on the zero-value instance. *)
Lemma nil_client_witness :
  etcdClient zero_lock = None /\
  Lock zero_lock tt 10 (script []) = ((zero_lock, Some ErrClientNil), script [], []) /\
  Close zero_lock (script []) = ((zero_lock, None), script [], []).
Proof.
  split; [reflexivity|].
  destruct (nil_client_is_not_dereferenced zero_lock eq_refl) as [HL HC].
  split; [apply HL | apply HC].
Defined.

(** C2 on the instance of [main]: released once, then again. *)
Lemma second_Unlock_witness :
  (snd (value (Unlock demo_held tt (started []))) = None /\
   Unlock demo_lock tt (started [true]) =
     ((demo_lock, Some ErrNotHeld), started [true], [])) /\
  (held zero_lock = false /\
   Unlock zero_lock tt (script []) = ((zero_lock, Some ErrNotHeld), script [], [])) /\
  (value (NewEtcdDistLock ["127.0.0.1:2379"] test_resource (script [])) = inl demo_lock /\
   Unlock demo_lock tt (started []) = ((demo_lock, Some ErrNotHeld), started [], [])).
Proof.
  destruct second_Unlock_is_NotHeld as (Hsecond & Hnever & Hfresh).
  split; [|split].
  - split; [reflexivity|].
    destruct (Hsecond demo_held tt (started []) eq_refl) as (_ & _ & Hagain).
    exact (Hagain tt (started [true])).
  - split; [reflexivity|].
    exact (Hnever zero_lock tt (script []) eq_refl).
  - split; [reflexivity|].
    exact (Hfresh ["127.0.0.1:2379"] test_resource (script []) demo_lock tt
             (started []) eq_refl).
Defined.

(** C9 on the instance of [main], across a [Lock]. *)
Lemma session_nil_iff_mutex_nil_witness :
  value (NewEtcdDistLock ["127.0.0.1:2379"] test_resource (script [])) = inl demo_lock /\
  paired demo_lock /\
  paired (fst (value (Lock demo_lock tt 10 (started [])))) /\
  paired (fst (value (Unlock demo_lock tt (started [])))) /\
  paired (fst (value (Close demo_lock (started [])))).
Proof.
  destruct session_nil_iff_mutex_nil as (HNew & HLock & HUnlock & HClose & _).
  assert (Hnew : value (NewEtcdDistLock ["127.0.0.1:2379"] test_resource (script []))
                 = inl demo_lock) by reflexivity.
  pose proof (HNew _ _ _ _ Hnew) as Hp.
  split; [exact Hnew|]. split; [exact Hp|]. split; [|split].
  - apply HLock. exact Hp.
  - apply HUnlock. exact Hp.
  - apply HClose. exact Hp.
Defined.

(** C10: a [Lock] whose session cannot be created. *)
Lemma failed_call_witness :
  (snd (value (Lock demo_lock tt 10 (started [false]))) <> None /\
   fst (value (Lock demo_lock tt 10 (started [false]))) = demo_lock) /\
  (Mutex_Unlock (1%nat, test_resource) tt (started [false]) = (started [], Some "unavailable") /\
   fst (value (Unlock demo_held tt (started [false]))) = demo_held /\
   snd (value (Unlock demo_held tt (started []))) = None).
Proof.
  destruct failed_call_changes_nothing as [HLock HUnlock].
  split.
  - assert (Herr : snd (value (Lock demo_lock tt 10 (started [false]))) <> None)
      by discriminate.
    split; [exact Herr|].
    destruct (HLock demo_lock tt 10%Z (started [false]) Herr) as [Hsame _].
    exact Hsame.
  - assert (Hu : Mutex_Unlock (1%nat, test_resource) tt (started [false])
                 = (started [], Some "unavailable")) by reflexivity.
    split; [exact Hu|].
    destruct (HUnlock demo_held (1%nat, test_resource) 1%nat tt (started [false])
                (started []) "unavailable" eq_refl eq_refl Hu) as (Heq & _ & Hretry).
    split.
    + rewrite Heq. reflexivity.
    + exact (proj1 (Hretry tt (started []) (started []) eq_refl)).
Defined.

(** On the scripted store: the session is created, the wait fails, the
    session is closed. *)
Lemma cancelled_Lock_witness :
  Lock demo_lock tt 10 (started [true; false; true]) =
    ((demo_lock, Some (fmt_Errorf "获取分布式锁失败：" (etcd_error "unavailable"))),
     {| outcomes := []; fresh := 2 |},
     [EvNewSession 0%nat 10 (inl 1%nat);
      EvNewMutex 1%nat test_resource;
      EvLog "尝试获取分布式锁...";
      EvMutexLock (1%nat, test_resource) tt (Some "unavailable");
      EvSessionClose 1%nat None]).
Proof.
  exact (cancelled_Lock_closes_its_session demo_lock tt 10
           (started [true; false; true])
           {| outcomes := [false; true]; fresh := 2 |}
           {| outcomes := [true]; fresh := 2 |}
           0%nat 1%nat "unavailable" eq_refl eq_refl eq_refl).
Defined.

(** C3 as stated fails: two cycles on one instance, all round-trips
    succeeding, create two sessions and close two. *)
Lemma two_cycles_use_two_sessions :
  snd (value (cycles 2 tt 10 demo_lock (started []))) = None /\
  count is_NewSession (events (cycles 2 tt 10 demo_lock (started []))) = 2%nat /\
  count is_SessionClose (events (cycles 2 tt 10 demo_lock (started []))) = 2%nat /\
  ~ single_session (events (cycles 2 tt 10 demo_lock (started []))).
Proof.
  repeat split; try reflexivity.
  unfold single_session. intros [Hle _]. vm_compute in Hle. lia.
Qed.

(** C3 (amended) on three cycles. *)
Lemma each_cycle_witness :
  snd (value (cycles 3 tt 10 demo_lock (started []))) = None /\
  count is_NewSession (events (cycles 3 tt 10 demo_lock (started []))) = 3%nat /\
  count is_SessionClose (events (cycles 3 tt 10 demo_lock (started []))) = 3%nat.
Proof.
  split; [reflexivity|].
  exact (each_cycle_opens_and_closes_a_session 3 tt 10 demo_lock (started []) eq_refl).
Defined.

(** C4 as stated fails: [Close] on an instance that holds the lock closes
    the client and returns nil, yet session 1 is not closed and the
    instance still records it. *)
Lemma Close_leaves_the_session_open :
  Close demo_held (started []) =
    ((demo_held, None), started [], [EvClientClose 0%nat None]) /\
  ~ tears_down 1%nat (events (Close demo_held (started []))) /\
  session (fst (value (Close demo_held (started [])))) = Some 1%nat.
Proof.
  split; [reflexivity|]. split; [|reflexivity].
  intros [r [H|[]]]. discriminate H.
Qed.

(** C6 as stated fails: no call of [Lock] on the instance of [main] takes
    a lock on another resource name. *)
Lemma Lock_cannot_name_another_resource :
  ~ exists ctx ttl st,
      acquires "/dist/lock/other_resource/" (events (Lock demo_lock ctx ttl st)).
Proof.
  intros (ctx & ttl & st & s & Hin).
  apply Lock_NewMutex_prefix in Hin. destruct Hin as [Hname _].
  discriminate Hname.
Qed.

(** C6 (amended) on the instance of [main]. *)
Lemma resource_name_witness :
  value (NewEtcdDistLock ["127.0.0.1:2379"] test_resource (script [])) = inl demo_lock /\
  lockPrefix demo_lock = test_resource /\
  In (EvNewMutex 1%nat test_resource) (events (Lock demo_lock tt 10 (started []))) /\
  test_resource = lockPrefix demo_lock.
Proof.
  assert (Hnew : value (NewEtcdDistLock ["127.0.0.1:2379"] test_resource (script []))
                 = inl demo_lock) by reflexivity.
  assert (Hin : In (EvNewMutex 1%nat test_resource)
                  (events (Lock demo_lock tt 10 (started []))))
    by (right; left; reflexivity).
  destruct resource_name_is_fixed_per_instance as (HNew & _ & HLock).
  split; [exact Hnew|].
  split; [exact (HNew _ _ _ _ Hnew)|].
  split; [exact Hin|].
  exact (proj1 (HLock demo_lock tt 10%Z (started []) 1%nat test_resource Hin)).
Defined.

(** C7 as stated fails: [mutex.Unlock] succeeds, [Session.Close] reports
    an error, and [Unlock] returns nil. *)
Lemma Unlock_swallows_the_Close_error :
  Unlock demo_held tt (started [true; false]) =
    ((demo_lock, None), started [],
     [EvLog "尝试释放分布式锁...";
      EvMutexUnlock (1%nat, test_resource) tt None;
      EvSessionClose 1%nat (Some "unavailable");
      EvLog "成功释放分布式锁"]) /\
  ~ no_swallowed_error (Unlock demo_held tt (started [true; false])).
Proof.
  split; [reflexivity|].
  unfold no_swallowed_error. intros H. apply H; reflexivity.
Qed.

(** C7 (amended) on the same run. *)
Lemma failed_steps_witness :
  Mutex_Unlock (1%nat, test_resource) tt (started [true; false]) = (started [false], None) /\
  snd (value (Unlock demo_held tt (started [true; false]))) = None.
Proof.
  assert (Hu : Mutex_Unlock (1%nat, test_resource) tt (started [true; false])
               = (started [false], None)) by reflexivity.
  split; [exact Hu|].
  destruct failed_steps_return_an_error as (_ & _ & Hclose).
  destruct (Hclose demo_held (1%nat, test_resource) 1%nat tt
              (started [true; false]) (started [false]) eq_refl eq_refl Hu) as [Hnil _].
  exact Hnil.
Defined.

(** * More of [lock.go]: sequences of calls and the client of [main] *)

Section LockTraces.
Context `{api : EtcdAPI}.

(** One call never closes more sessions than it opens, counting what the
    instance records before and after. *)
Lemma run_op_balance (o : Op) (l : EtcdDistLock) (st : Store) :
  (count is_SessionClose (events (run_op o l st))
   + sessions_recorded (fst (value (run_op o l st)))
   <= count is_opened (events (run_op o l st)) + sessions_recorded l)%nat.
Proof.
  destruct o as [ctx ttl|ctx|]; cbn [run_op].
  - destruct (Lock_path l ctx ttl st); cbn; lia.
  - destruct (Unlock_path l ctx st)
      as [Hh|mu sess st1 err Hm Hs Hu|mu sess st1 st2 r Hm Hs Hu Hx];
      unfold sessions_recorded; cbn; try rewrite Hs; cbn; lia.
  - rewrite Close_same. unfold Close.
    destruct (etcdClient l) as [cli|]; [|cbn; lia].
    unfold bind, ret, do_ClientClose.
    destruct (Client_Close cli st) as [st1 r]. cbn. lia.
Qed.

(** X1: along any sequence of [Lock], [Unlock] and [Close] calls on one
    instance, the sessions closed plus the session still recorded at the
    end never exceed the sessions opened plus the session recorded at the
    start. *)
Theorem sessions_closed_never_exceed_opened (os : list Op) :
  forall (l : EtcdDistLock) (st : Store),
    (count is_SessionClose (events (run_ops os l st))
     + sessions_recorded (value (run_ops os l st))
     <= count is_opened (events (run_ops os l st)) + sessions_recorded l)%nat.
Proof.
  induction os as [|o os IH]; intros l st; cbn [run_ops].
  - cbn. lia.
  - unfold bind.
    pose proof (run_op_balance o l st) as Hstep.
    destruct (run_op o l st) as [[r st1] t1].
    specialize (IH (fst r) st1).
    destruct (run_ops os (fst r) st1) as [[l2 st2] t2].
    cbn [value events fst snd] in *.
    rewrite !count_app. lia.
Qed.

(** ** [mutex.Unlock] is only called on what [mutex.Lock] obtained *)

Lemma unlocks_follow_locks_app (pre new : list Event) :
  unlocks_follow_locks pre ->
  (forall m ctx r, In (EvMutexUnlock m ctx r) new ->
                   exists ctx', In (EvMutexLock m ctx' None) pre) ->
  unlocks_follow_locks (pre ++ new).
Proof.
  intros Hpre Hnew a m ctx r b Heq.
  apply app_eq_app in Heq. destruct Heq as [mid [[Hp Hn]|[Ha Hn]]].
  - (* the call lies in [pre] *)
    destruct mid as [|e mid].
    + rewrite app_nil_r in Hp. subst a.
      cbn in Hn. apply (Hnew m ctx r). rewrite <- Hn. left. reflexivity.
    + cbn in Hn. injection Hn as He Hb. subst e.
      apply (Hpre a m ctx r mid). exact Hp.
  - (* the call lies in [new] *)
    destruct (Hnew m ctx r) as [ctx' Hin].
    + rewrite Hn. apply in_or_app. right. left. reflexivity.
    + exists ctx'. rewrite Ha. apply in_or_app. left. exact Hin.
Qed.

Lemma holds_locked_app (pre new : list Event) (l : EtcdDistLock) :
  holds_locked pre l -> holds_locked (pre ++ new) l.
Proof.
  intros H m s Hm Hs. destruct (H m s Hm Hs) as [ctx' Hin].
  exists ctx'. apply in_or_app. left. exact Hin.
Qed.

(** One call keeps both properties of the trace so far. *)
Lemma run_op_unlocks (o : Op) (l : EtcdDistLock) (st : Store) (pre : list Event) :
  unlocks_follow_locks pre ->
  holds_locked pre l ->
  unlocks_follow_locks (pre ++ events (run_op o l st)) /\
  holds_locked (pre ++ events (run_op o l st)) (fst (value (run_op o l st))).
Proof.
  intros Hpre Hl.
  destruct o as [ctx ttl|ctx|]; cbn [run_op].
  - destruct (Lock_path l ctx ttl st)
      as [Hc|cli st1 err Hc Hs|cli st1 sess st2 err st3 r Hc Hs Hm Hx|cli st1 sess st2 Hc Hs Hm];
      cbn [events value fst snd].
    + rewrite app_nil_r. split; assumption.
    + split; [|apply holds_locked_app; exact Hl].
      apply unlocks_follow_locks_app; [exact Hpre|].
      intros m c r [H|[]]. discriminate H.
    + split; [|apply holds_locked_app; exact Hl].
      apply unlocks_follow_locks_app; [exact Hpre|].
      intros m c r' Hin. cbn in Hin.
      repeat (destruct Hin as [Hin|Hin]; [discriminate Hin|]). destruct Hin.
    + split.
      * apply unlocks_follow_locks_app; [exact Hpre|].
        intros m c r' Hin. cbn in Hin.
        repeat (destruct Hin as [Hin|Hin]; [discriminate Hin|]). destruct Hin.
      * intros m s Hmu Hse. cbn in Hmu. injection Hmu as <-.
        exists ctx. apply in_or_app. right. cbn. auto.
  - destruct (Unlock_path l ctx st)
      as [Hh|mu sess st1 err Hm Hs Hu|mu sess st1 st2 r Hm Hs Hu Hx];
      cbn [events value fst snd].
    + rewrite app_nil_r. split; assumption.
    + split; [|apply holds_locked_app; exact Hl].
      apply unlocks_follow_locks_app; [exact Hpre|].
      intros m c r' Hin. cbn in Hin.
      destruct Hin as [Hin|[Hin|[]]]; [discriminate Hin|].
      injection Hin as -> _ _. exact (Hl m sess Hm Hs).
    + split.
      * apply unlocks_follow_locks_app; [exact Hpre|].
        intros m c r' Hin. cbn in Hin.
        destruct Hin as [Hin|[Hin|[Hin|[Hin|[]]]]]; try discriminate Hin.
        injection Hin as -> _ _. exact (Hl m sess Hm Hs).
      * intros m s Hmu. cbn in Hmu. discriminate Hmu.
  - rewrite Close_same. split; [|apply holds_locked_app; exact Hl].
    apply unlocks_follow_locks_app; [exact Hpre|].
    unfold Close. destruct (etcdClient l) as [cli|]; [|intros m c r []].
    unfold bind, ret, do_ClientClose.
    destruct (Client_Close cli st) as [st1 r0]. cbn.
    intros m c r [H|[]]. discriminate H.
Qed.

Lemma run_ops_unlocks (os : list Op) :
  forall (l : EtcdDistLock) (st : Store) (pre : list Event),
    unlocks_follow_locks pre ->
    holds_locked pre l ->
    unlocks_follow_locks (pre ++ events (run_ops os l st)).
Proof.
  induction os as [|o os IH]; intros l st pre Hpre Hl; cbn [run_ops].
  - cbn. rewrite app_nil_r. exact Hpre.
  - unfold bind.
    destruct (run_op_unlocks o l st pre Hpre Hl) as [H1 H2].
    destruct (run_op o l st) as [[r st1] t1].
    cbn [events value fst snd] in *.
    specialize (IH (fst r) st1 (pre ++ t1)%list H1 H2).
    destruct (run_ops os (fst r) st1) as [[l2 st2] t2].
    cbn [events value fst snd] in *.
    rewrite app_assoc. exact IH.
Qed.

(** X2: starting from an instance that holds nothing, whatever sequence
    of [Lock], [Unlock] and [Close] calls follows, every [mutex.Unlock]
    the instance issues is on a mutex that an earlier [mutex.Lock] of the
    same sequence obtained. *)
Theorem Unlock_only_releases_what_Lock_obtained
  (os : list Op) (l : EtcdDistLock) (st : Store) (Hfree : held l = false) :
  unlocks_follow_locks (events (run_ops os l st)).
Proof.
  change (unlocks_follow_locks ([] ++ events (run_ops os l st))).
  apply run_ops_unlocks.
  - intros a m ctx r b Heq. destruct a; discriminate Heq.
  - intros m s Hm Hs.
    assert (held l = true) by (apply held_true; eauto). congruence.
Qed.

(** X3: a [Lock] that succeeds releases nothing the instance held before:
    it makes no [Session.Close] and no [mutex.Unlock] call, and it
    overwrites [session] and [mutex] with the session and mutex it has
    just created, so that a later [Unlock] closes that new session only. *)
Theorem Lock_again_releases_nothing
  (l : EtcdDistLock) (ctx : context_Context) (ttl : Z) (st : Store)
  (Hok : snd (value (Lock l ctx ttl st)) = None) :
  existsb is_SessionClose (events (Lock l ctx ttl st)) = false /\
  existsb is_MutexUnlock (events (Lock l ctx ttl st)) = false /\
  exists cli s1,
    In (EvNewSession cli ttl (inl s1)) (events (Lock l ctx ttl st)) /\
    session (fst (value (Lock l ctx ttl st))) = Some s1 /\
    mutex (fst (value (Lock l ctx ttl st))) = Some (concurrency_NewMutex s1 (lockPrefix l)) /\
    forall ctx2 st2 s r,
      In (EvSessionClose s r) (events (Unlock (fst (value (Lock l ctx ttl st))) ctx2 st2)) ->
      s = s1.
Proof.
  destruct (Lock_nil_inv l ctx ttl st Hok) as (cli & st1 & sess & st2 & Hc & Hs & Hm & Heq).
  rewrite Heq. cbn [events value fst snd].
  split; [reflexivity|]. split; [reflexivity|].
  exists cli, sess. split; [left; reflexivity|].
  split; [reflexivity|]. split; [reflexivity|].
  intros ctx2 stu s r.
  match goal with |- context [Unlock ?l1 ctx2 stu] =>
    destruct (Unlock_path l1 ctx2 stu)
      as [Hh|mu s' st3 err Hm' Hs' Hu|mu s' st3 st4 r' Hm' Hs' Hu Hx]
  end; cbn [events value fst snd]; intros Hin.
  - destruct Hin.
  - destruct Hin as [Hin|[Hin|[]]]; discriminate Hin.
  - destruct Hin as [Hin|[Hin|[Hin|[Hin|[]]]]]; try discriminate Hin.
    injection Hin as -> _. cbn in Hs'. congruence.
Qed.

End LockTraces.

Section ClientOfMainProofs.
Context `{api : EtcdAPI}.
Variable StoreErr_Error : StoreErr -> string.

(** A list that ends in [x]. *)
Lemma ends_with (x : Event) (evs : list Event) :
  evs <> [] -> last evs x = x -> evs = (removelast evs ++ [x])%list.
Proof.
  intros Hne Hlast.
  pose proof (app_removelast_last x Hne) as H. rewrite Hlast in H. exact H.
Qed.

Ltac close_step :=
  unfold Close, bind, ret, do_ClientClose; cbn [etcdClient fst snd];
  match goal with |- context [Client_Close ?c ?s] =>
    destruct (Client_Close c s) as [stc rc]
  end.

Ltac client_paths eps pfx ttl ctx st :=
  unfold client, NewEtcdDistLock, bind, ret, do_New, log_Printf;
  fold (main_config eps);
  destruct (clientv3_New (main_config eps) st) as [st0 [cli|err0]];
  cbn [snd fst];
  [ match goal with |- context [Lock ?l0 ctx ttl ?s0] =>
      destruct (Lock_path l0 ctx ttl s0)
        as [Hc|cli1 st1 err Hc Hs|cli1 st1 sess st2 err st3 r Hc Hs Hm Hx|cli1 st1 sess st2 Hc Hs Hm]
    end;
    cbn [snd fst];
    [ match goal with H : etcdClient _ = None |- _ => discriminate H end
    | close_step
    | close_step
    | match goal with |- context [Unlock ?l1 ctx ?s2] =>
        destruct (Unlock_path l1 ctx s2)
          as [Hh|mu s' st3 err Hm' Hs' Hu|mu s' st3 st4 r' Hm' Hs' Hu Hx]
      end;
      cbn [snd fst];
      [ match goal with H : held _ = false |- _ => discriminate H end
      | close_step
      | close_step ] ]
  | ].

(** X4: in the client goroutine of [main], when [NewEtcdDistLock] fails
    nothing else is called; when it succeeds, the deferred [Close] makes
    [etcdClient.Close] the last call on every path, and the only one of
    its kind. *)
Theorem client_closes_its_client_last
  (eps : list string) (pfx : string) (ttl : Z) (ctx : context_Context) (cid : Z)
  (st : Store) :
  match snd (clientv3_New (main_config eps) st) with
  | inr e =>
      filter is_call (events (client StoreErr_Error eps pfx ttl ctx cid st))
      = [EvNew (main_config eps) (inr e)]
  | inl cli =>
      exists evs r,
        events (client StoreErr_Error eps pfx ttl ctx cid st)
        = (evs ++ [EvClientClose cli r])%list /\
        existsb is_ClientClose evs = false
  end.
Proof.
  client_paths eps pfx ttl ctx st;
    cbn [events snd fst app];
    try (eexists (removelast _), rc;
         split; [apply ends_with; [discriminate|reflexivity]|reflexivity]).
  reflexivity.
Qed.

(** X5: the client goroutine of [main] closes every session it opened,
    except when [mutex.Unlock] reports an error: then [Unlock] returns
    early, the deferred [Close] closes the client only, and the session
    is left open. *)
Theorem client_leaves_a_session_open_iff_Unlock_fails
  (eps : list string) (pfx : string) (ttl : Z) (ctx : context_Context) (cid : Z)
  (st : Store) :
  count is_SessionClose (events (client StoreErr_Error eps pfx ttl ctx cid st))
  = count is_opened (events (client StoreErr_Error eps pfx ttl ctx cid st))
  <->
  existsb unlock_failed (events (client StoreErr_Error eps pfx ttl ctx cid st)) = false.
Proof.
  client_paths eps pfx ttl ctx st;
    cbn [events snd fst app count filter length existsb
         is_SessionClose is_opened unlock_failed orb];
    split; intros H; try reflexivity; discriminate H.
Qed.

End ClientOfMainProofs.

(** * [service/handler/user_handler.go]: [Register] *)

Lemma Register_cases (req : user.RegisterRequest) (rsp : user.RegisterResponse)
  (unix rnd : Z) (db : UserDB) :
  let r := Register req rsp unix rnd db in
  ((user.Username req = "" \/ user.Password req = "") /\
   reg_db r = db /\ user.Code (reg_rsp r) = 1%Z /\
   user.Message (reg_rsp r) = "用户名和密码不能为空" /\
   user.UserId (reg_rsp r) = user.UserId rsp /\ reg_log r = []) \/
  (user.Username req <> "" /\ user.Password req <> "" /\
   StrMap.In (user.Username req) db /\
   reg_db r = db /\ user.Code (reg_rsp r) = 1%Z /\
   user.Message (reg_rsp r) = "用户名已存在，请更换用户名" /\
   user.UserId (reg_rsp r) = user.UserId rsp) \/
  (user.Username req <> "" /\ user.Password req <> "" /\
   ~ StrMap.In (user.Username req) db /\
   reg_db r = StrMap.add (user.Username req) true db /\
   user.Code (reg_rsp r) = 0%Z /\
   user.Message (reg_rsp r) = "注册成功" /\
   user.UserId (reg_rsp r) = user_id unix rnd).
Proof.
  unfold Register.
  destruct (user.Username req =? "") eqn:Hu; cbn [orb].
  - left. apply String.eqb_eq in Hu. cbn. tauto.
  - destruct (user.Password req =? "") eqn:Hp.
    + left. apply String.eqb_eq in Hp. cbn. tauto.
    + apply String.eqb_neq in Hu. apply String.eqb_neq in Hp.
      destruct (StrMap.mem (user.Username req) db) eqn:Hm.
      * right. left. apply StrMapFacts.mem_in_iff in Hm. cbn. tauto.
      * right. right. cbn. repeat split; try assumption.
        intros Hin. apply StrMapFacts.mem_in_iff in Hin. congruence.
Qed.

(** X6: [Register] never returns an error; it answers code 0 exactly when
    the user name and the password are non-empty and the user name is not
    yet in [userDB]; in every other case the code is 1, [userDB] is left
    as it was and the [UserId] of the response is not written. *)
Theorem Register_succeeds_iff_fresh_and_filled
  (req : user.RegisterRequest) (rsp : user.RegisterResponse)
  (unix rnd : Z) (db : UserDB) :
  reg_err (Register req rsp unix rnd db) = None /\
  (user.Code (reg_rsp (Register req rsp unix rnd db)) = 0%Z <->
   user.Username req <> "" /\ user.Password req <> "" /\
   ~ StrMap.In (user.Username req) db) /\
  (user.Code (reg_rsp (Register req rsp unix rnd db)) <> 0%Z ->
   user.Code (reg_rsp (Register req rsp unix rnd db)) = 1%Z /\
   reg_db (Register req rsp unix rnd db) = db /\
   user.UserId (reg_rsp (Register req rsp unix rnd db)) = user.UserId rsp).
Proof.
  split; [|split].
  - unfold Register.
    destruct (_ || _); [reflexivity|]. destruct (StrMap.mem _ _); reflexivity.
  - destruct (Register_cases req rsp unix rnd db)
      as [(He & _ & Hc & _)|[(Hu & Hp & Hin & _ & Hc & _)|(Hu & Hp & Hnin & _ & Hc & _)]];
      rewrite Hc; split; try discriminate; tauto.
  - destruct (Register_cases req rsp unix rnd db)
      as [(_ & Hd & Hc & _ & Hi & _)|[(_ & _ & _ & Hd & Hc & _ & Hi)|(_ & _ & _ & _ & Hc & _)]];
      rewrite Hc; intros Hne; try (repeat split; assumption).
    exfalso. apply Hne. reflexivity.
Qed.


Lemma Register_db_in (req : user.RegisterRequest) (rsp : user.RegisterResponse)
  (unix rnd : Z) (db : UserDB) (k : string) :
  StrMap.In k (reg_db (Register req rsp unix rnd db)) <->
  StrMap.In k db \/
  (user.Code (reg_rsp (Register req rsp unix rnd db)) = 0%Z /\ k = user.Username req).
Proof.
  destruct (Register_cases req rsp unix rnd db)
    as [(_ & Hd & Hc & _)|[(_ & _ & _ & Hd & Hc & _)|(_ & _ & _ & Hd & Hc & _)]];
    rewrite Hd, Hc.
  - split; [auto|]. intros [H|[H _]]; [exact H|discriminate H].
  - split; [auto|]. intros [H|[H _]]; [exact H|discriminate H].
  - rewrite StrMapFacts.add_in_iff. split.
    + intros [H|H]; [right; split; [reflexivity|symmetry; exact H]|left; exact H].
    + intros [H|[_ H]]; [right; exact H|left; symmetry; exact H].
Qed.

Lemma Register_code0_fresh (req : user.RegisterRequest) (rsp : user.RegisterResponse)
  (unix rnd : Z) (db : UserDB) :
  user.Code (reg_rsp (Register req rsp unix rnd db)) = 0%Z ->
  ~ StrMap.In (user.Username req) db.
Proof.
  destruct (Register_cases req rsp unix rnd db)
    as [(_ & _ & Hc & _)|[(_ & _ & _ & _ & Hc & _)|(_ & _ & Hnin & _)]];
    try (rewrite Hc; discriminate).
  intros _. exact Hnin.
Qed.

Lemma registered_names_cons (req : user.RegisterRequest) (rsp : user.RegisterResponse)
  (rest : list (user.RegisterRequest * user.RegisterResponse)) :
  registered_names ((req, rsp) :: rest) =
  if (user.Code rsp =? 0)%Z
  then user.Username req :: registered_names rest
  else registered_names rest.
Proof.
  unfold registered_names. cbn. destruct (user.Code rsp =? 0)%Z; reflexivity.
Qed.

Lemma serve_cons (c : Call) (calls : list Call) (db : UserDB) :
  serve (c :: calls) db =
  let r := Register (call_req c) (call_rsp c) (call_unix c) (call_rnd c) db in
  ((call_req c, reg_rsp r) :: fst (serve calls (reg_db r)),
   snd (serve calls (reg_db r))).
Proof.
  cbn [serve]. destruct (serve calls _) as [rest db']. reflexivity.
Qed.

(** The names in [userDB] after serving: those before and those
    registered. *)
Lemma serve_db_in (calls : list Call) :
  forall (db : UserDB) (k : string),
    StrMap.In k (snd (serve calls db)) <->
    StrMap.In k db \/ In k (registered_names (fst (serve calls db))).
Proof.
  induction calls as [|c calls IH]; intros db k.
  - cbn. tauto.
  - rewrite serve_cons. cbn [fst snd].
    rewrite IH, registered_names_cons, Register_db_in.
    destruct (user.Code _ =? 0)%Z eqn:Hc.
    + apply Z.eqb_eq in Hc. cbn [In]. split.
      * intros [[H|[_ H]]|H]; auto.
      * intros [H|[H|H]]; auto.
    + apply Z.eqb_neq in Hc. tauto.
Qed.

(** A name registered while serving was not in [userDB] before. *)
Lemma served_names_fresh (calls : list Call) :
  forall (db : UserDB) (u : string),
    In u (registered_names (fst (serve calls db))) -> ~ StrMap.In u db.
Proof.
  induction calls as [|c calls IH]; intros db u.
  - cbn. tauto.
  - rewrite serve_cons. cbn [fst]. rewrite registered_names_cons.
    destruct (user.Code _ =? 0)%Z eqn:Hc.
    + apply Z.eqb_eq in Hc. intros [Hu|Hu].
      * subst u. apply Register_code0_fresh in Hc. exact Hc.
      * apply IH in Hu. intros Hin. apply Hu.
        apply Register_db_in. left. exact Hin.
    + intros Hu. apply IH in Hu. intros Hin. apply Hu.
      apply Register_db_in. left. exact Hin.
Qed.

(** X8: however many calls [Register] serves on the shared [userDB], no
    user name is registered twice: the names answered with code 0 are
    pairwise distinct and none of them was in [userDB] before; afterwards
    [userDB] holds the names it had and those, and no other. *)
Theorem serve_registers_each_name_once (calls : list Call) (db : UserDB) :
  NoDup (registered_names (fst (serve calls db))) /\
  (forall u, In u (registered_names (fst (serve calls db))) -> ~ StrMap.In u db) /\
  (forall k, StrMap.In k (snd (serve calls db)) <->
             StrMap.In k db \/ In k (registered_names (fst (serve calls db)))).
Proof.
  split; [|split].
  - revert db. induction calls as [|c calls IH]; intros db.
    + cbn. constructor.
    + rewrite serve_cons. cbn [fst]. rewrite registered_names_cons.
      destruct (user.Code _ =? 0)%Z eqn:Hc; [|apply IH].
      constructor; [|apply IH].
      intros Hin. apply served_names_fresh in Hin. apply Hin.
      apply Register_db_in. right. apply Z.eqb_eq in Hc. split; [exact Hc|reflexivity].
  - apply served_names_fresh.
  - apply serve_db_in.
Qed.

(** * [pkg/common] and the Redis rate limiter *)

(** X9: every reply built by [Success], [Fail] or [Error] carries a
    non-empty message; [Success] answers 200 with code 0, [Error] answers
    500 with code 500, and [Fail] answers 200 with the given code, except
    that code 0 is replaced by 1, so the code of a [Fail] reply is never
    0. *)
Theorem replies_have_a_message_and_Fail_is_never_code_0
  {D : Type} (data : option D) (code : Z) (message : string) :
  (common.Message (common.body (common.Success data message)) <> "" /\
   common.Message (common.body (@common.Fail D code message)) <> "" /\
   common.Message (common.body (@common.Error D message)) <> "") /\
  (common.status (common.Success data message) = 200%Z /\
   common.Code (common.body (common.Success data message)) = 0%Z /\
   common.Data (common.body (common.Success data message)) = data) /\
  (common.status (@common.Fail D code message) = 200%Z /\
   common.Code (common.body (@common.Fail D code message)) <> 0%Z /\
   (code <> 0%Z -> common.Code (common.body (@common.Fail D code message)) = code)) /\
  (common.status (@common.Error D message) = 500%Z /\
   common.Code (common.body (@common.Error D message)) = 500%Z).
Proof.
  unfold common.Success, common.Fail, common.Error. cbn.
  destruct (message =? "") eqn:Hm.
  - destruct (code =? 0)%Z eqn:Hc.
    + repeat split; try discriminate. intros H. apply Z.eqb_eq in Hc. contradiction.
    + apply Z.eqb_neq in Hc. repeat split; try discriminate; auto.
  - apply String.eqb_neq in Hm.
    destruct (code =? 0)%Z eqn:Hc.
    + repeat split; try discriminate; try assumption.
      intros H. apply Z.eqb_eq in Hc. contradiction.
    + apply Z.eqb_neq in Hc. repeat split; try discriminate; auto.
Qed.

Lemma wrap64_small (z : Z) :
  (- 2 ^ 63 <= z < 2 ^ 63)%Z -> wrap64 z = z.
Proof.
  intros H. unfold wrap64. rewrite Z.mod_small; lia.
Qed.

Section RateLimiterProofs.
Context `{redis : RedisAPI}.

Ltac unfold_ract :=
  unfold rbind, rret, do_SetNX, do_Get, do_IncrBy, do_Set, do_Decr.

(** [take_token] sends one [DECR] and decides by the number it answers. *)
Lemma take_token_spec {D : Type} (key : string) (rs : Redis) :
  let d := snd (redis_Decr key rs) in
  @take_token _ D key rs =
    (if (fst d <? 0)%Z
     then Aborted (common.Fail 429 "请求过于频繁，请稍后再试")
     else Passed,
     fst (redis_Decr key rs),
     [CmdDecr key d]).
Proof.
  unfold take_token. unfold_ract.
  destruct (redis_Decr key rs) as [rs1 [t e]]. cbn.
  destruct (t <? 0)%Z; reflexivity.
Qed.

(** X10: when [SETNX] reports an error the limiter fails closed: it
    replies 500 with code 500 and the message of a failed initialisation,
    aborts the chain, and sends no other command. *)
Theorem RateLimit_aborts_when_SetNX_fails
  {D : Type} (limit interval seconds : Z) (clientIP apiPath : string)
  (now1 now2 : Z) (rs : Redis) (e : RedisErr)
  (Hfail : snd (snd (redis_SetNX (limit_key apiPath clientIP ++ ":last_refill")
                       now1 (int64_mul interval 2) rs)) = Some e) :
  let key := limit_key apiPath clientIP ++ ":last_refill" in
  let ttl := int64_mul interval 2 in
  @RateLimit _ D limit interval seconds clientIP apiPath now1 now2 rs =
    (Aborted {| common.status := 500;
                common.body := {| common.Code := 500;
                                  common.Message := "限流初始化失败";
                                  common.Data := None |} |},
     fst (redis_SetNX key now1 ttl rs),
     [CmdSetNX key now1 ttl (snd (redis_SetNX key now1 ttl rs))]).
Proof.
  intros key ttl. unfold RateLimit. unfold_ract. fold key. fold ttl.
  subst key ttl.
  destruct (redis_SetNX _ now1 _ rs) as [rs1 [b oe]].
  cbn in Hfail. subst oe. reflexivity.
Qed.

Ltac decide_by_decr :=
  right; rewrite take_token_spec;
  match goal with |- context [redis_Decr ?k ?r] =>
    let rs5 := fresh "rs" in
    let t := fresh "t" in
    let e := fresh "e" in
    let Ht := fresh "Ht" in
    destruct (redis_Decr k r) as [rs5 [t e]];
    cbn [snd fst app];
    match goal with |- exists pre t' e', ?L = _ /\ _ =>
      exists (removelast L), t, e
    end;
    (split; [reflexivity|]); (split; [reflexivity|]);
    destruct (t <? 0)%Z eqn:Ht;
    [right; apply Z.ltb_lt in Ht; split; [exact Ht|reflexivity]
    |left; apply Z.ltb_ge in Ht; split; [exact Ht|reflexivity]]
  end.

(** X11: when [SETNX] succeeded, the limiter either panics or ends with
    exactly one [DECR] on the bucket of the client and route, as its last
    command, and the number that [DECR] answers decides alone: the request
    passes when it is not negative, and is otherwise refused with HTTP
    status 200 and code 429 in the body.  No error reported by [GET],
    [INCRBY], [SET] or [DECR] changes this. *)
Theorem RateLimit_decides_by_the_DECR_answer
  {D : Type} (limit interval seconds : Z) (clientIP apiPath : string)
  (now1 now2 : Z) (rs : Redis)
  (Hok : snd (snd (redis_SetNX (limit_key apiPath clientIP ++ ":last_refill")
                     now1 (int64_mul interval 2) rs)) = None) :
  let out := @RateLimit _ D limit interval seconds clientIP apiPath now1 now2 rs in
  fst (fst out) = Panicked \/
  exists pre t e,
    snd out = (pre ++ [CmdDecr (limit_key apiPath clientIP) (t, e)])%list /\
    existsb is_Decr pre = false /\
    ((0 <= t)%Z /\ fst (fst out) = Passed \/
     (t < 0)%Z /\
     fst (fst out) =
       Aborted {| common.status := 200;
                  common.body := {| common.Code := 429;
                                    common.Message := "请求过于频繁，请稍后再试";
                                    common.Data := None |} |}).
Proof.
  intros out. subst out. unfold RateLimit. unfold_ract.
  destruct (redis_SetNX _ now1 _ rs) as [rs1 [b oe]].
  cbn in Hok. subst oe. cbn [snd fst].
  destruct (redis_Get_Int64 _ rs1) as [rs2 [last ge]]. cbn [snd fst].
  destruct (int64_sub now2 last >? 0)%Z.
  - destruct (seconds =? 0)%Z; [left; reflexivity|].
    destruct (int64_quot _ seconds >? 0)%Z.
    + match goal with |- context [redis_IncrBy ?k ?n rs2] =>
        destruct (redis_IncrBy k n rs2) as [rs3 ri]
      end.
      match goal with |- context [redis_Set ?k ?v ?l rs3] =>
        destruct (redis_Set k v l rs3) as [rs4 rt]
      end.
      decide_by_decr.
    + decide_by_decr.
  - decide_by_decr.
Qed.

(** X12: with an interval of less than a second ([seconds] is 0) the
    limiter divides by zero: once [SETNX] has succeeded and the stored
    refill time lies before the current second, the handler panics after
    [GET], before any token is added or taken. *)
Theorem RateLimit_panics_when_the_interval_is_below_a_second
  {D : Type} (limit interval : Z) (clientIP apiPath : string)
  (now1 now2 : Z) (rs rs1 rs2 : Redis) (b : bool) (last : Z) (ge : option RedisErr)
  (Hset : redis_SetNX (limit_key apiPath clientIP ++ ":last_refill")
            now1 (int64_mul interval 2) rs = (rs1, (b, None)))
  (Hget : redis_Get_Int64 (limit_key apiPath clientIP ++ ":last_refill") rs1
          = (rs2, (last, ge)))
  (Helapsed : (0 < int64_sub now2 last)%Z) :
  @RateLimit _ D limit interval 0 clientIP apiPath now1 now2 rs =
    (Panicked, rs2,
     [CmdSetNX (limit_key apiPath clientIP ++ ":last_refill") now1
        (int64_mul interval 2) (b, None);
      CmdGet (limit_key apiPath clientIP ++ ":last_refill") (last, ge)]).
Proof.
  unfold RateLimit. unfold_ract. rewrite Hset. cbn [snd fst].
  rewrite Hget. cbn [snd fst].
  apply Z.gtb_lt in Helapsed. rewrite Helapsed. reflexivity.
Qed.

(** X13: the refill is not capped by [limit].  When [SETNX] succeeded,
    [elapsed] seconds have passed since the stored refill time and
    [elapsed * limit] is at least [seconds] (and fits 64 bits), the
    limiter adds [elapsed * limit / seconds] tokens with one [INCRBY],
    whatever the bucket holds, then stores the current time as the refill
    time, then takes a token; the number added is at least [k * limit]
    once [k] whole intervals have passed. *)
Theorem RateLimit_refill_is_not_capped
  {D : Type} (limit interval seconds : Z) (clientIP apiPath : string)
  (now1 now2 : Z) (rs rs1 rs2 : Redis) (b : bool) (last : Z) (ge : option RedisErr)
  (Hset : redis_SetNX (limit_key apiPath clientIP ++ ":last_refill")
            now1 (int64_mul interval 2) rs = (rs1, (b, None)))
  (Hget : redis_Get_Int64 (limit_key apiPath clientIP ++ ":last_refill") rs1
          = (rs2, (last, ge)))
  (Helapsed : (0 < int64_sub now2 last)%Z)
  (Hseconds : (0 < seconds)%Z)
  (Hfits : (int64_sub now2 last * limit < 2 ^ 63)%Z)
  (Hsome : (seconds <= int64_sub now2 last * limit)%Z) :
  let elapsed := int64_sub now2 last in
  let added := (elapsed * limit / seconds)%Z in
  (exists ri rt d,
      snd (@RateLimit _ D limit interval seconds clientIP apiPath now1 now2 rs) =
        [CmdSetNX (limit_key apiPath clientIP ++ ":last_refill") now1
           (int64_mul interval 2) (b, None);
         CmdGet (limit_key apiPath clientIP ++ ":last_refill") (last, ge);
         CmdIncrBy (limit_key apiPath clientIP) added ri;
         CmdSet (limit_key apiPath clientIP ++ ":last_refill") now2
           (int64_mul interval 2) rt;
         CmdDecr (limit_key apiPath clientIP) d]) /\
  (forall k, (0 <= k)%Z -> (k * seconds <= elapsed)%Z -> (k * limit <= added)%Z).
Proof.
  intros elapsed added.
  assert (Hlimit : (0 < limit)%Z) by (subst elapsed; nia).
  assert (Hmul : int64_mul elapsed limit = (elapsed * limit)%Z).
  { unfold int64_mul. apply wrap64_small. subst elapsed. nia. }
  assert (Hquot : int64_quot (elapsed * limit) seconds = added).
  { unfold int64_quot, added. rewrite Z.quot_div_nonneg by (subst elapsed; nia).
    apply wrap64_small. split.
    - apply Z.le_trans with 0%Z; [lia|]. apply Z.div_pos; subst elapsed; nia.
    - apply Z.le_lt_trans with (elapsed * limit)%Z; [|exact Hfits].
      apply Z.div_le_upper_bound; subst elapsed; nia. }
  assert (Hadded : (0 < added)%Z).
  { unfold added. apply Z.div_str_pos. subst elapsed. lia. }
  split.
  - unfold RateLimit. unfold_ract. rewrite Hset. cbn [snd fst].
    rewrite Hget. cbn [snd fst].
    fold elapsed. rewrite Hmul, Hquot.
    apply Z.gtb_lt in Helapsed. fold elapsed in Helapsed. rewrite Helapsed.
    assert (Hs0 : (seconds =? 0)%Z = false) by (apply Z.eqb_neq; lia).
    rewrite Hs0.
    apply Z.gtb_lt in Hadded. rewrite Hadded.
    destruct (redis_IncrBy (limit_key apiPath clientIP) added rs2) as [rs3 ri].
    destruct (redis_Set (limit_key apiPath clientIP ++ ":last_refill") now2
                (int64_mul interval 2) rs3) as [rs4 rt].
    rewrite take_token_spec.
    destruct (redis_Decr (limit_key apiPath clientIP) rs4) as [rs5 d].
    cbn [snd fst app]. exists ri, rt, d. reflexivity.
  - intros k Hk Hks. unfold added.
    apply Z.div_le_lower_bound; [exact Hseconds|]. nia.
Qed.

End RateLimiterProofs.

(** * The Hystrix interceptor *)

(** X14: the interceptor returns the value of its variable [err], not the
    result of [hystrix.Do].  So when [hystrix.Do] refuses the command
    without running it (it only calls the fallback, with some error [e]),
    the wrapped handler is not called and the interceptor returns nil;
    when [hystrix.Do] runs the command, the interceptor returns what the
    wrapped handler returned. *)
Theorem MicroRateLimit_returns_nil_when_refused
  `{hystrix : HystrixAPI}
  (maxConcurrent : Z) (service endpoint : string)
  (next : World -> World * option Err) (w : World) :
  let name := service ++ "." ++ endpoint in
  let w1 := hystrix_ConfigureCommand name
              {| Timeout := 3000;
                 MaxConcurrentRequests := maxConcurrent;
                 RequestVolumeThreshold := 0;
                 SleepWindow := 0;
                 ErrorPercentThreshold := 0 |} w in
  (forall e,
      hystrix_Do name (run_next next) fallback_id (None, w1)
      = fallback_id e (None, w1) ->
      MicroRateLimit maxConcurrent service endpoint next w = (w1, None)) /\
  (hystrix_Do name (run_next next) fallback_id (None, w1)
   = run_next next (None, w1) ->
   MicroRateLimit maxConcurrent service endpoint next w = next w1).
Proof.
  intros name w1. split.
  - intros e Hdo. unfold MicroRateLimit. fold name. fold w1.
    rewrite Hdo. reflexivity.
  - intros Hdo. unfold MicroRateLimit. fold name. fold w1.
    rewrite Hdo. unfold run_next. cbn [snd].
    destruct (next w1) as [w' e]. reflexivity.
Qed.

(** * The user ids of [Register] and [GenerateUserId] *)

Lemma string_length_app (a b : string) :
  String.length (a ++ b) = (String.length a + String.length b)%nat.
Proof.
  induction a as [|c a IH]; cbn; [reflexivity|]. rewrite IH. reflexivity.
Qed.

Lemma zeros_length (n : nat) : String.length (zeros n) = n.
Proof.
  induction n as [|n IH]; cbn; [reflexivity|]. rewrite IH. reflexivity.
Qed.

Lemma string_of_uint_length (d : Decimal.uint) :
  String.length (NilEmpty.string_of_uint d) = Decimal.nb_digits d.
Proof.
  induction d; cbn; try rewrite IHd; reflexivity.
Qed.

Lemma usize_nb_digits (d : Decimal.uint) :
  DecimalPos.Unsigned.usize d = N.of_nat (Decimal.nb_digits d).
Proof.
  induction d; cbn [DecimalPos.Unsigned.usize Decimal.nb_digits];
    try rewrite IHd; lia.
Qed.

(** The digits of a positive number do not start with a zero. *)
Lemma to_uint_head (p : positive) (d' : Decimal.uint) :
  Pos.to_uint p <> Decimal.D0 d'.
Proof.
  intros E.
  pose proof (DecimalPos.Unsigned.to_of (Pos.to_uint p)) as H.
  rewrite DecimalPos.Unsigned.of_to in H. cbn [N.to_uint] in H.
  rewrite E in H. unfold Decimal.unorm in H. cbn [Decimal.nzhead] in H.
  pose proof (DecimalFacts.nb_digits_nzhead d') as Hle.
  destruct (Decimal.nzhead d') eqn:Hn; try discriminate H.
  - injection H as H. subst d'.
    apply (DecimalPos.Unsigned.to_uint_nonzero p). exact E.
  - injection H as H. subst d'. cbn [Decimal.nb_digits] in Hle. lia.
Qed.

(** A positive number below [10 ^ k] has at most [k] digits. *)
Lemma to_uint_digits (p : positive) (k : nat) :
  (N.pos p < 10 ^ N.of_nat k)%N -> (Decimal.nb_digits (Pos.to_uint p) <= k)%nat.
Proof.
  intros Hlt.
  pose proof (DecimalPos.Unsigned.of_to p) as Hof.
  pose proof (to_uint_head p) as Hhead.
  destruct (Pos.to_uint p) as [|d|d|d|d|d|d|d|d|d|d] eqn:E;
    [ discriminate Hof | exfalso; exact (Hhead d eq_refl) | .. ];
    cbn [Pos.of_uint] in Hof;
    rewrite DecimalPos.Unsigned.of_uint_acc_rev, usize_nb_digits in Hof;
    cbn [Decimal.nb_digits];
    destruct (Nat.le_gt_cases (S (Decimal.nb_digits d)) k) as [Hle|Hgt];
    try exact Hle;
    exfalso;
    assert (Hpow : (10 ^ N.of_nat k <= 10 ^ N.of_nat (Decimal.nb_digits d))%N)
      by (apply N.pow_le_mono_r; lia);
    nia.
Qed.

Lemma fmt_d_length (r : Z) (k : nat) :
  (0 <= r < 10 ^ Z.of_nat k)%Z -> (0 < k)%nat -> (String.length (fmt_d r) <= k)%nat.
Proof.
  intros [H0 Hlt] Hk. unfold fmt_d.
  destruct r as [|p|p]; cbn [Z.to_int NilZero.string_of_int].
  - cbn. lia.
  - unfold NilZero.string_of_uint.
    pose proof (DecimalPos.Unsigned.to_uint_nonnil p) as Hnn.
    assert (Hlen : (String.length (NilEmpty.string_of_uint (Pos.to_uint p)) <= k)%nat).
    { rewrite string_of_uint_length. apply to_uint_digits.
      apply N2Z.inj_lt. rewrite N2Z.inj_pow. cbn. rewrite nat_N_Z. exact Hlt. }
    destruct (Pos.to_uint p); try exact Hlen. contradiction.
  - lia.
Qed.

(** A draw of [rand.Intn(999999)] is printed with exactly six digits. *)
Lemma fmt_06d_length (r : Z) :
  (0 <= r < 999999)%Z -> String.length (fmt_06d r) = 6%nat.
Proof.
  intros Hr. unfold fmt_06d.
  assert (Hneg : (r <? 0)%Z = false) by (apply Z.ltb_ge; lia).
  rewrite Hneg, Z.abs_eq by lia.
  change (String.length "") with 0%nat. rewrite Nat.sub_0_r.
  change ("" ++ ?x) with x.
  rewrite string_length_app, zeros_length.
  pose proof (fmt_d_length r 6) as Hlen.
  assert (String.length (fmt_d r) <= 6)%nat by (apply Hlen; [lia|lia]).
  lia.
Qed.

Lemma fmt_d_digits (r : Z) :
  (0 <= r)%Z ->
  fmt_d r = NilEmpty.string_of_uint (digits_of r) /\
  Pos.of_uint (digits_of r) = Z.to_N r.
Proof.
  intros H0. unfold fmt_d, digits_of.
  destruct r as [|p|p]; cbn [Z.to_int NilZero.string_of_int].
  - split; reflexivity.
  - split.
    + unfold NilZero.string_of_uint.
      pose proof (DecimalPos.Unsigned.to_uint_nonnil p) as Hnn.
      destruct (Pos.to_uint p); try reflexivity. contradiction.
    + apply DecimalPos.Unsigned.of_to.
  - lia.
Qed.

Lemma zeros_digits (k : nat) (d : Decimal.uint) :
  zeros k ++ NilEmpty.string_of_uint d
  = NilEmpty.string_of_uint (Nat.iter k Decimal.D0 d).
Proof.
  induction k as [|k IH]; cbn; [reflexivity|]. rewrite IH. reflexivity.
Qed.

Lemma of_uint_zeros (k : nat) (d : Decimal.uint) :
  Pos.of_uint (Nat.iter k Decimal.D0 d) = Pos.of_uint d.
Proof.
  induction k as [|k IH]; cbn; [reflexivity|]. exact IH.
Qed.

Lemma string_of_uint_inj (d d' : Decimal.uint) :
  NilEmpty.string_of_uint d = NilEmpty.string_of_uint d' -> d = d'.
Proof.
  intros H. apply (f_equal NilEmpty.uint_of_string) in H.
  rewrite !NilEmpty.usu in H. congruence.
Qed.

(** Zero padding loses nothing. *)
Lemma fmt_06d_inj (r1 r2 : Z) :
  (0 <= r1)%Z -> (0 <= r2)%Z -> fmt_06d r1 = fmt_06d r2 -> r1 = r2.
Proof.
  intros H1 H2. unfold fmt_06d.
  assert (Hn1 : (r1 <? 0)%Z = false) by (apply Z.ltb_ge; lia).
  assert (Hn2 : (r2 <? 0)%Z = false) by (apply Z.ltb_ge; lia).
  rewrite Hn1, Hn2, !Z.abs_eq by lia. cbn [append].
  destruct (fmt_d_digits r1 H1) as [E1 V1].
  destruct (fmt_d_digits r2 H2) as [E2 V2].
  rewrite E1, E2, !zeros_digits. intros H.
  apply string_of_uint_inj in H.
  apply (f_equal Pos.of_uint) in H. rewrite !of_uint_zeros, V1, V2 in H.
  lia.
Qed.

Lemma to_int_not_nil (z : Z) :
  Z.to_int z <> Decimal.Pos Decimal.Nil /\ Z.to_int z <> Decimal.Neg Decimal.Nil.
Proof.
  destruct z as [|p|p]; cbn; split; try discriminate;
    intros E; injection E as E; exact (DecimalPos.Unsigned.to_uint_nonnil _ E).
Qed.

Lemma fmt_d_inj (a b : Z) : fmt_d a = fmt_d b -> a = b.
Proof.
  unfold fmt_d. intros H.
  apply DecimalZ.to_int_inj.
  apply (f_equal NilZero.int_of_string) in H.
  destruct (to_int_not_nil a) as [Ha1 Ha2].
  destruct (to_int_not_nil b) as [Hb1 Hb2].
  rewrite !NilZero.isi in H by assumption.
  congruence.
Qed.

Lemma append_inj_tail (a1 a2 b1 b2 : string) :
  String.length b1 = String.length b2 ->
  a1 ++ b1 = a2 ++ b2 -> a1 = a2 /\ b1 = b2.
Proof.
  revert a2. induction a1 as [|c a1 IH]; intros a2 Hlen H.
  - destruct a2 as [|c2 a2]; cbn in H.
    + split; [reflexivity|exact H].
    + exfalso. apply (f_equal String.length) in H.
      cbn in H. rewrite string_length_app in H. lia.
  - destruct a2 as [|c2 a2]; cbn in H.
    + exfalso. apply (f_equal String.length) in H.
      cbn in H. rewrite string_length_app in H. lia.
    + injection H as Hc H. destruct (IH a2 Hlen H) as [Ha Hb].
      subst. split; reflexivity.
Qed.

Lemma user_id_inj (unix1 rnd1 unix2 rnd2 : Z) :
  (0 <= rnd1 < 999999)%Z -> (0 <= rnd2 < 999999)%Z ->
  user_id unix1 rnd1 = user_id unix2 rnd2 -> unix1 = unix2 /\ rnd1 = rnd2.
Proof.
  intros H1 H2. unfold user_id. intros H. cbn [append] in H.
  injection H as H.
  apply append_inj_tail in H.
  - destruct H as [Hu Hr]. split.
    + apply fmt_d_inj. exact Hu.
    + apply fmt_06d_inj; [lia|lia|exact Hr].
  - rewrite !fmt_06d_length by assumption. reflexivity.
Qed.

(** X15: [GenerateUserId] builds the same string as [Register] does; for
    a draw in the range of [rand.Intn(999999)] the id is [USER_], the
    seconds in decimal, and exactly six digits, and two ids are equal only
    when both the seconds and the draws are. *)
Theorem user_id_determines_second_and_draw
  (unix1 rnd1 unix2 rnd2 : Z)
  (Hdraw1 : (0 <= rnd1 < 999999)%Z) (Hdraw2 : (0 <= rnd2 < 999999)%Z) :
  common.GenerateUserId unix1 rnd1 = user_id unix1 rnd1 /\
  (exists six,
      common.GenerateUserId unix1 rnd1 = "USER_" ++ fmt_d unix1 ++ six /\
      String.length six = 6%nat) /\
  (common.GenerateUserId unix1 rnd1 = common.GenerateUserId unix2 rnd2 <->
   unix1 = unix2 /\ rnd1 = rnd2).
Proof.
  split; [reflexivity|]. split.
  - exists (fmt_06d rnd1). split; [reflexivity|]. apply fmt_06d_length. exact Hdraw1.
  - split.
    + apply user_id_inj; assumption.
    + intros [-> ->]. reflexivity.
Qed.

(** X16: when two calls of [Register] both succeed, with draws in the
    range of [rand.Intn(999999)], they hand out the same [UserId] exactly
    when they read the same second and the same draw; the user name does
    not enter the id. *)
Theorem Register_ids_collide_iff_same_second_and_draw
  (req1 req2 : user.RegisterRequest) (rsp1 rsp2 : user.RegisterResponse)
  (unix1 rnd1 unix2 rnd2 : Z) (db1 db2 : UserDB)
  (Hdraw1 : (0 <= rnd1 < 999999)%Z) (Hdraw2 : (0 <= rnd2 < 999999)%Z)
  (Hok1 : user.Code (reg_rsp (Register req1 rsp1 unix1 rnd1 db1)) = 0%Z)
  (Hok2 : user.Code (reg_rsp (Register req2 rsp2 unix2 rnd2 db2)) = 0%Z) :
  user.UserId (reg_rsp (Register req1 rsp1 unix1 rnd1 db1))
  = user.UserId (reg_rsp (Register req2 rsp2 unix2 rnd2 db2))
  <-> unix1 = unix2 /\ rnd1 = rnd2.
Proof.
  assert (Hid : forall req rsp unix rnd db,
             user.Code (reg_rsp (Register req rsp unix rnd db)) = 0%Z ->
             user.UserId (reg_rsp (Register req rsp unix rnd db)) = user_id unix rnd).
  { intros req rsp unix rnd db Hok.
    destruct (Register_cases req rsp unix rnd db)
      as [(_ & _ & Hc & _)|[(_ & _ & _ & _ & Hc & _)|(_ & _ & _ & _ & _ & _ & Hi)]];
      try (rewrite Hc in Hok; discriminate Hok).
    exact Hi. }
  rewrite (Hid _ _ _ _ _ Hok1), (Hid _ _ _ _ _ Hok2). split.
  - apply user_id_inj; assumption.
  - intros [-> ->]. reflexivity.
Qed.

(** * Several callers on the store of the specification *)

Section SpecStoreFacts.
















(** ** The ordered range read *)







End SpecStoreFacts.

Section CallersOnSpecStore.
#[local] Existing Instance SpecEtcd | 0.

















(** ** When no lease lapses *)














(** C5 (amended): when [mutex.Lock] returns an error, [Lock] closes the
    session it had just created, as its last call, and returns the wrapped
    error whatever [Session.Close] answers.  When [Session.Close] returns
    nil the lease is revoked and no queue entry of that session is left in
    the store. *)
Theorem cancelled_Lock_revokes_when_Close_succeeds
  (l : EtcdDistLock) (ctx : SpecCtx) (ttl : Z) (st st1 st2 : SpecStore)
  (sess : nat) (err : SpecErr)
  (Hcli : etcdClient l = Some tt)
  (Hsess : spec_NewSession tt ttl st = (st1, inl sess))
  (Hwait : spec_Mutex_Lock (sess, lockPrefix l) ctx st1 = (st2, Some err)) :
  Lock l ctx ttl st =
    ((l, Some (fmt_Errorf "获取分布式锁失败：" (etcd_error err))),
     fst (spec_Session_Close sess st2),
     [EvNewSession tt ttl (inl sess);
      EvNewMutex sess (lockPrefix l);
      EvLog "尝试获取分布式锁...";
      EvMutexLock (sess, lockPrefix l) ctx (Some err);
      EvSessionClose sess (snd (spec_Session_Close sess st2))]) /\
  (snd (spec_Session_Close sess st2) = None ->
   ~ In sess (leases (fst (spec_Session_Close sess st2))) /\
   forall e, In e (queue (fst (spec_Session_Close sess st2))) -> e_lease e <> sess).
Proof.
  split.
  - exact (cancelled_Lock_closes_its_session l ctx ttl st st1 st2 tt sess err
             Hcli Hsess Hwait).
  - unfold spec_Session_Close, LeaseRevoke.
    destruct (answer st2) as [ok st3]. destruct ok; cbn [fst snd]; [|discriminate].
    intros _. split.
    + intros Hin. cbn in Hin. apply filter_In in Hin. destruct Hin as [_ Hne].
      rewrite Nat.eqb_refl in Hne. discriminate Hne.
    + intros e He Hl. cbn in He. apply filter_In in He. destruct He as [_ Hne].
      rewrite Hl, Nat.eqb_refl in Hne. discriminate Hne.
Qed.

End CallersOnSpecStore.

(** * The store of the specification at work *)

Section SpecStoreRuns.
#[local] Existing Instance SpecEtcd | 0.

(** Caller 0 takes the lock; caller 1 waits behind it and is granted once
    the lease of caller 0 has lapsed.  The instance of caller 0 still has
    its fields set, and its handle is no longer Held. *)
Example waiter_is_granted_after_lapse :
  let now := interleave [Calls 0 (OpLock (Deadline 0) 10);
                         Calls 1 (OpLock (Deadline 3) 10)]
               two_callers (spec_store [] [0%nat]) in
  held (fst now 0%nat) = true /\ Held (snd now) (fst now 0%nat) = false /\
  Held (snd now) (fst now 1%nat) = true.
Proof. repeat split. Qed.

(** Caller 1 gives up while caller 0 holds, and gets the lock after caller
    0 has released it. *)
Example second_caller_after_release :
  let now := interleave [Calls 0 (OpLock (Deadline 0) 10);
                         Calls 1 (OpLock (Deadline 3) 10);
                         Calls 0 (OpUnlock (Deadline 0));
                         Calls 1 (OpLock (Deadline 3) 10)]
               two_callers (spec_store [] []) in
  held (fst now 0%nat) = false /\ held (fst now 1%nat) = true /\
  Held (snd now) (fst now 1%nat) = true.
Proof. repeat split. Qed.


(** C5 as stated fails: the resource is held by another participant, the
    deadline passes while the caller waits, and neither the withdrawal nor
    [Session.Close] reaches the store.  [Lock] returns the timeout error,
    and the entry of its session 1 is still in the queue. *)
Lemma failed_Close_leaves_a_stale_member :
  Lock (spec_lock test_resource) (Deadline 0) 10
       (spec_held_by_other [true; true; false; false])
  = ((spec_lock test_resource,
      Some (fmt_Errorf "获取分布式锁失败：" (etcd_error ErrTimeout))),
     {| leases := [1%nat; 0%nat]; next_lease := 2;
        queue := [{| e_prefix := test_resource; e_lease := 1; e_rev := 1 |};
                  {| e_prefix := test_resource; e_lease := 0; e_rev := 0 |}];
        next_rev := 2; answers := []; lapses := [] |},
     [EvNewSession tt 10 (inl 1%nat);
      EvNewMutex 1%nat test_resource;
      EvLog "尝试获取分布式锁...";
      EvMutexLock (1%nat, test_resource) (Deadline 0) (Some ErrTimeout);
      EvSessionClose 1%nat (Some ErrStoreUnavailable)]) /\
  ~ leaves_no_stale_member
      (Lock (spec_lock test_resource) (Deadline 0) 10
            (spec_held_by_other [true; true; false; false])).
Proof.
  split; [reflexivity|].
  intros H.
  apply (H ltac:(discriminate) tt 10%Z 1%nat
           {| e_prefix := test_resource; e_lease := 1; e_rev := 1 |}).
  - left. reflexivity.
  - left. reflexivity.
  - reflexivity.
Qed.

(** C5 (amended) on the same call when the store is reached: the entry is
    withdrawn and the lease revoked. *)
Lemma cancelled_Lock_revokes_witness :
  spec_Mutex_Lock (1%nat, test_resource) (Deadline 0)
    (fst (spec_NewSession tt 10 (spec_held_by_other [])))
  = ({| leases := [1%nat; 0%nat]; next_lease := 2;
        queue := [{| e_prefix := test_resource; e_lease := 0; e_rev := 0 |}];
        next_rev := 2; answers := []; lapses := [] |},
     Some ErrTimeout) /\
  store_of (Lock (spec_lock test_resource) (Deadline 0) 10 (spec_held_by_other []))
  = {| leases := [0%nat]; next_lease := 2;
       queue := [{| e_prefix := test_resource; e_lease := 0; e_rev := 0 |}];
       next_rev := 2; answers := []; lapses := [] |} /\
  forall e,
    In e (queue (store_of (Lock (spec_lock test_resource) (Deadline 0) 10
                             (spec_held_by_other [])))) ->
    e_lease e <> 1%nat.
Proof.
  split; [reflexivity|]. split; [reflexivity|].
  destruct (cancelled_Lock_revokes_when_Close_succeeds
              (spec_lock test_resource) (Deadline 0) 10
              (spec_held_by_other [])
              (fst (spec_NewSession tt 10 (spec_held_by_other [])))
              {| leases := [1%nat; 0%nat]; next_lease := 2;
                 queue := [{| e_prefix := test_resource; e_lease := 0; e_rev := 0 |}];
                 next_rev := 2; answers := []; lapses := [] |}
              1%nat ErrTimeout eq_refl eq_refl eq_refl) as [Heq Hgone].
  rewrite Heq. cbn [store_of fst snd].
  exact (proj2 (Hgone eq_refl)).
Defined.

End SpecStoreRuns.

(** * The added properties on concrete runs *)

Example first_request_is_refused :
  fst (fst (@RateLimit _ unit 10 (60 * time_Second) 60 "10.0.0.1" "/api/register"
              1000 1000 redis_empty))
  = Aborted (common.Fail 429 "请求过于频繁，请稍后再试").
Proof. reflexivity. Qed.

Example serve_demo :
  registered_names
    (fst (serve [mkCall alice zero_response 1700000000 42; mkCall alice_again zero_response 1700000001 7;
                 mkCall nameless zero_response 1 1] userDB_init))
  = ["alice"].
Proof. reflexivity. Qed.

(** X2 on the instance of [main]: a cycle, one [Unlock] too many, and
    [Close]. *)
Lemma Unlock_only_releases_witness :
  held demo_lock = false /\
  unlocks_follow_locks
    (events (run_ops [OpLock tt 10; OpUnlock tt; OpUnlock tt; OpClose]
               demo_lock (started []))).
Proof.
  split; [reflexivity|].
  exact (Unlock_only_releases_what_Lock_obtained
           [OpLock tt 10; OpUnlock tt; OpUnlock tt; OpClose]
           demo_lock (started []) eq_refl).
Defined.

(** X3 on an instance that already holds the lock through session 1. *)
Lemma Lock_again_witness :
  snd (value (Lock demo_held tt 10 {| outcomes := []; fresh := 2 |})) = None /\
  session (fst (value (Lock demo_held tt 10 {| outcomes := []; fresh := 2 |})))
  = Some 2%nat /\
  existsb is_SessionClose
    (events (Lock demo_held tt 10 {| outcomes := []; fresh := 2 |})) = false.
Proof.
  split; [reflexivity|]. split; [reflexivity|].
  exact (proj1 (Lock_again_releases_nothing demo_held tt 10
                  {| outcomes := []; fresh := 2 |} eq_refl)).
Defined.

(** X6 on a first registration. *)
Lemma Register_succeeds_witness :
  user.Username alice <> "" /\ user.Password alice <> "" /\
  ~ StrMap.In (user.Username alice) userDB_init /\
  user.Code (reg_rsp (Register alice zero_response 1700000000 42 userDB_init)) = 0%Z.
Proof.
  assert (Hu : user.Username alice <> "") by discriminate.
  assert (Hp : user.Password alice <> "") by discriminate.
  assert (Hn : ~ StrMap.In (user.Username alice) userDB_init).
  { intros H. apply StrMapFacts.empty_in_iff in H. exact H. }
  split; [exact Hu|]. split; [exact Hp|]. split; [exact Hn|].
  destruct (Register_succeeds_iff_fresh_and_filled alice zero_response
              1700000000 42 userDB_init) as (_ & Hiff & _).
  apply Hiff. repeat split; assumption.
Defined.


(** X8 on three calls. *)
Lemma serve_witness :
  NoDup (registered_names
           (fst (serve [mkCall alice zero_response 1700000000 42; mkCall alice_again zero_response 1700000001 7;
                        mkCall nameless zero_response 1 1] userDB_init))).
Proof.
  exact (proj1 (serve_registers_each_name_once
                  [mkCall alice zero_response 1700000000 42; mkCall alice_again zero_response 1700000001 7;
                   mkCall nameless zero_response 1 1] userDB_init)).
Defined.

(** X10 on a Redis that is down. *)
Lemma RateLimit_aborts_witness :
  snd (snd (redis_SetNX (limit_key "/api/register" "10.0.0.1" ++ ":last_refill")
              1000 (int64_mul (60 * time_Second) 2) redis_down))
  = Some "connection refused" /\
  fst (fst (@RateLimit _ unit 10 (60 * time_Second) 60 "10.0.0.1" "/api/register"
              1000 1000 redis_down))
  = Aborted (common.Error "限流初始化失败").
Proof.
  split; [reflexivity|].
  rewrite (@RateLimit_aborts_when_SetNX_fails MemRedisAPI unit 10 (60 * time_Second) 60
             "10.0.0.1" "/api/register" 1000 1000 redis_down
             "connection refused" eq_refl).
  reflexivity.
Defined.

(** X11 on the first request of a client. *)
Lemma RateLimit_decides_witness :
  snd (snd (redis_SetNX (limit_key "/api/register" "10.0.0.1" ++ ":last_refill")
              1000 (int64_mul (60 * time_Second) 2) redis_empty)) = None /\
  (fst (fst (@RateLimit _ unit 10 (60 * time_Second) 60 "10.0.0.1" "/api/register"
               1000 1000 redis_empty)) = Panicked \/
   exists pre t e,
     snd (@RateLimit _ unit 10 (60 * time_Second) 60 "10.0.0.1" "/api/register"
            1000 1000 redis_empty)
     = (pre ++ [CmdDecr (limit_key "/api/register" "10.0.0.1") (t, e)])%list /\
     existsb is_Decr pre = false /\
     ((0 <= t)%Z /\
      fst (fst (@RateLimit _ unit 10 (60 * time_Second) 60 "10.0.0.1" "/api/register"
                  1000 1000 redis_empty)) = Passed \/
      (t < 0)%Z /\
      fst (fst (@RateLimit _ unit 10 (60 * time_Second) 60 "10.0.0.1" "/api/register"
                  1000 1000 redis_empty))
      = Aborted {| common.status := 200;
                   common.body := {| common.Code := 429;
                                     common.Message := "请求过于频繁，请稍后再试";
                                     common.Data := None |} |})).
Proof.
  split; [reflexivity|].
  exact (@RateLimit_decides_by_the_DECR_answer MemRedisAPI unit 10 (60 * time_Second) 60
           "10.0.0.1" "/api/register" 1000 1000 redis_empty eq_refl).
Defined.

(** X12: half a second as the interval, five seconds after the refill. *)
Lemma RateLimit_panics_witness :
  (0 < int64_sub 1005 1000)%Z /\
  fst (fst (@RateLimit _ unit 10 500000000 0 "10.0.0.1" "/api/register"
              1005 1005 redis_refilled_at_1000)) = Panicked.
Proof.
  split; [reflexivity|].
  rewrite (@RateLimit_panics_when_the_interval_is_below_a_second MemRedisAPI unit
             10 500000000 "10.0.0.1" "/api/register" 1005 1005
             redis_refilled_at_1000 redis_refilled_at_1000 redis_refilled_at_1000
             false 1000 None eq_refl eq_refl eq_refl).
  reflexivity.
Defined.

(** X13: ten tokens a minute, two minutes after the refill: twenty tokens
    are added. *)
Lemma RateLimit_refill_witness :
  (0 < int64_sub 1120 1000)%Z /\ (0 < 60)%Z /\
  (int64_sub 1120 1000 * 10 < 2 ^ 63)%Z /\ (60 <= int64_sub 1120 1000 * 10)%Z /\
  (2 * 10 <= int64_sub 1120 1000 * 10 / 60)%Z.
Proof.
  assert (H1 : (0 < int64_sub 1120 1000)%Z) by reflexivity.
  assert (H2 : (0 < 60)%Z) by reflexivity.
  assert (H3 : (int64_sub 1120 1000 * 10 < 2 ^ 63)%Z) by reflexivity.
  assert (H4 : (60 <= int64_sub 1120 1000 * 10)%Z) by (vm_compute; discriminate).
  split; [exact H1|]. split; [exact H2|]. split; [exact H3|]. split; [exact H4|].
  destruct (@RateLimit_refill_is_not_capped MemRedisAPI unit 10 (60 * time_Second) 60
              "10.0.0.1" "/api/register" 1120 1120
              redis_refilled_at_1000 redis_refilled_at_1000 redis_refilled_at_1000
              false 1000 None eq_refl eq_refl H1 H2 H3 H4) as [_ Hcap].
  apply (Hcap 2%Z); vm_compute; discriminate.
Defined.

(** X14 with the breaker open, and with it closed. *)
Lemma MicroRateLimit_witness :
  MicroRateLimit 5 "user.service" "Register" failing_handler
    {| breaker_open := true; handled := 0 |}
  = ({| breaker_open := true; handled := 0 |}, None) /\
  MicroRateLimit 5 "user.service" "Register" failing_handler
    {| breaker_open := false; handled := 0 |}
  = ({| breaker_open := false; handled := 1 |}, Some "handler failed").
Proof.
  split.
  - exact (proj1 (@MicroRateLimit_returns_nil_when_refused ToyHystrix 5
                    "user.service" "Register" failing_handler
                    {| breaker_open := true; handled := 0 |})
             "hystrix: circuit open" eq_refl).
  - exact (proj2 (@MicroRateLimit_returns_nil_when_refused ToyHystrix 5
                    "user.service" "Register" failing_handler
                    {| breaker_open := false; handled := 0 |})
             eq_refl).
Defined.

(** X5 on two runs of the client: all goes well; [mutex.Unlock] fails. *)
Lemma client_session_witness :
  existsb unlock_failed
    (events (client scripted_text ["127.0.0.1:2379"] test_resource 10 tt 3 (script [])))
  = false /\
  count is_SessionClose
    (events (client scripted_text ["127.0.0.1:2379"] test_resource 10 tt 3 (script [])))
  = count is_opened
      (events (client scripted_text ["127.0.0.1:2379"] test_resource 10 tt 3 (script []))) /\
  count is_SessionClose
    (events (client scripted_text ["127.0.0.1:2379"] test_resource 10 tt 3
               (script [true; true; true; false])))
  <> count is_opened
       (events (client scripted_text ["127.0.0.1:2379"] test_resource 10 tt 3
                  (script [true; true; true; false]))).
Proof.
  split; [reflexivity|]. split.
  - apply (proj2 (client_leaves_a_session_open_iff_Unlock_fails scripted_text
                    ["127.0.0.1:2379"] test_resource 10 tt 3 (script []))).
    reflexivity.
  - intros Heq.
    apply (proj1 (client_leaves_a_session_open_iff_Unlock_fails scripted_text
                    ["127.0.0.1:2379"] test_resource 10 tt 3
                    (script [true; true; true; false]))) in Heq.
    discriminate Heq.
Defined.

(** X9 on the reply of the rate limiter. *)
Lemma replies_witness :
  (429 <> 0)%Z /\
  common.Code (common.body (@common.Fail unit 429 "请求过于频繁，请稍后再试")) = 429%Z /\
  common.Code (common.body (@common.Fail unit 0 "")) <> 0%Z.
Proof.
  assert (Hne : (429 <> 0)%Z) by discriminate.
  split; [exact Hne|]. split.
  - destruct (@replies_have_a_message_and_Fail_is_never_code_0 unit None 429
                "请求过于频繁，请稍后再试") as (_ & _ & (_ & _ & Hcode) & _).
    exact (Hcode Hne).
  - destruct (@replies_have_a_message_and_Fail_is_never_code_0 unit None 0 "")
      as (_ & _ & (_ & Hnz & _) & _).
    exact Hnz.
Defined.

(** X15 on two ids of the same second. *)
Lemma user_id_witness :
  (0 <= 42 < 999999)%Z /\ (0 <= 7 < 999999)%Z /\
  common.GenerateUserId 1700000000 42 = "USER_1700000000000042" /\
  common.GenerateUserId 1700000000 42 <> common.GenerateUserId 1700000000 7.
Proof.
  assert (H1 : (0 <= 42 < 999999)%Z) by lia.
  assert (H2 : (0 <= 7 < 999999)%Z) by lia.
  split; [exact H1|]. split; [exact H2|]. split; [reflexivity|].
  intros Heq.
  destruct (user_id_determines_second_and_draw 1700000000 42 1700000000 7 H1 H2)
    as (_ & _ & Hiff).
  destruct (proj1 Hiff Heq) as [_ Hdraw]. discriminate Hdraw.
Defined.

(** X16: alice and bob register in the same second with the same draw. *)
Lemma Register_ids_witness :
  user.Code (reg_rsp (Register alice zero_response 1700000000 42 userDB_init)) = 0%Z /\
  user.Code (reg_rsp (Register bob zero_response 1700000000 42 userDB_init)) = 0%Z /\
  user.UserId (reg_rsp (Register alice zero_response 1700000000 42 userDB_init))
  = user.UserId (reg_rsp (Register bob zero_response 1700000000 42 userDB_init)).
Proof.
  assert (Hdraw : (0 <= 42 < 999999)%Z) by lia.
  split; [reflexivity|]. split; [reflexivity|].
  apply (proj2 (Register_ids_collide_iff_same_second_and_draw alice bob
                  zero_response zero_response 1700000000 42 1700000000 42
                  userDB_init userDB_init Hdraw Hdraw eq_refl eq_refl)).
  split; reflexivity.
Defined.
